(** * surfaxe: slab generation, deduplication and output emission

    A shallow embedding of [surfaxe/generation.py]: the two drivers
    [get_one_hkl_slabs] and [get_all_slabs] and the decorator
    [oxidation_states], over an interface for the pymatgen calls they make.

    Python values are modelled as follows.
    - An argument that may be [None] is an [option]; [None] is Python's None.
    - Thicknesses, vacuums, [max_size] and [max_index] are integers ([Z]);
      a batch index produced by [enumerate] is a [nat].
    - A raised exception is the [Raise] case of [result]; a function with
      effects is a state transformer on [World] returning a [result].
    - A [Structure] is a mutable object: it lives in the heap of [World]
      and is passed around by reference ([loc]).
    - A [Slab] is never mutated by this module and is modelled as a value.
    - [**kwargs] is forwarded verbatim to pymatgen and is left out. *)

From Stdlib Require Import ZArith String Ascii List Bool Lia.
From stdpp Require Import base option list strings gmap pretty.

Import ListNotations.
Local Open Scope string_scope.
Local Open Scope Z_scope.

(** ** The Python runtime used by the module *)

Module Py.

(** Exceptions. [LibraryError] stands for anything pymatgen or the
    operating system raises by itself. *)
Inductive exn : Type :=
| ValueError (msg : string)
| TypeError (msg : string)
| AttributeError (msg : string)
| LibraryError (msg : string).

Inductive result (A : Type) : Type :=
| Ok (a : A)
| Raise (e : exn).
Arguments Ok {A} a.
Arguments Raise {A} e.

(** Runtime types, as seen by [type(x) is T]. A subclass is a different
    type object from its base. *)
Inductive pytype : Type :=
| TNoneType
| TDict
| TList
| TTuple
| TSubclass (base : pytype) (name : string)
| TClass (name : string).

(** The values that can be passed as [ox_states]. *)
Inductive pyobj : Type :=
| PyNone
| PyDict (d : gmap string Z)
| PyList (l : list Z)
| PyTuple (l : list Z)
| PyDictSubclass (name : string) (d : gmap string Z)
| PyListSubclass (name : string) (l : list Z)
| PyObject (name : string).

Definition type_of (o : pyobj) : pytype :=
  match o with
  | PyNone => TNoneType
  | PyDict _ => TDict
  | PyList _ => TList
  | PyTuple _ => TTuple
  | PyDictSubclass name _ => TSubclass TDict name
  | PyListSubclass name _ => TSubclass TList name
  | PyObject name => TClass name
  end.

(** Truth value of the required arguments, as [any] tests them. *)
Definition truthy_str (o : option string) : bool :=
  match o with
  | None => false
  | Some s => negb (String.eqb s "")
  end.

Definition truthy_list {A : Type} (o : option (list A)) : bool :=
  match o with
  | None | Some [] => false
  | Some (_ :: _) => true
  end.

(** A Miller index is a 3-tuple, which is never empty. *)
Definition truthy_tuple3 (o : option (Z * Z * Z)) : bool :=
  match o with
  | None => false
  | Some _ => true
  end.

Definition truthy_int (o : option Z) : bool :=
  match o with
  | None => false
  | Some n => negb (n =? 0)
  end.

(** [any(xs)] on a list of truth values. *)
Definition any (xs : list bool) : bool := existsb (fun b => b) xs.

(** [str] on integers. *)
Definition str_int (n : Z) : string := pretty n.
Definition str_nat (n : nat) : string := pretty n.

(** [sep.join(xs)]. *)
Fixpoint join (sep : string) (xs : list string) : string :=
  match xs with
  | [] => ""
  | [x] => x
  | x :: rest => x ++ sep ++ join sep rest
  end.

(** [s.replace(" ", "")]. *)
Fixpoint remove_spaces (s : string) : string :=
  match s with
  | EmptyString => EmptyString
  | String c rest =>
      if Ascii.eqb c " "%char then remove_spaces rest
      else String c (remove_spaces rest)
  end.

Definition starts_with_slash (s : string) : bool :=
  match s with
  | String c _ => Ascii.eqb c "/"%char
  | EmptyString => false
  end.

Fixpoint ends_with_slash (s : string) : bool :=
  match s with
  | EmptyString => false
  | String c EmptyString => Ascii.eqb c "/"%char
  | String _ rest => ends_with_slash rest
  end.

(** [os.path.join(a, b)] on POSIX. *)
Definition os_path_join (a b : string) : string :=
  if starts_with_slash b then b
  else if String.eqb a "" || ends_with_slash a then a ++ b
  else a ++ "/" ++ b.

(** [enumerate(xs)]. *)
Fixpoint enumerate_from {A : Type} (start : nat) (xs : list A)
  : list (nat * A) :=
  match xs with
  | [] => []
  | x :: rest => (start, x) :: enumerate_from (S start) rest
  end.

Definition enumerate {A : Type} (xs : list A) : list (nat * A) :=
  enumerate_from 0 xs.

(** [xs.append(x)]. *)
Definition append {A : Type} (xs : list A) (x : A) : list A :=
  (xs ++ [x])%list.

(** [x in xs] for an equality test [eq], as the language reference
    gives it: [any(x is e or x == e for e in xs)], so the item looked for
    is the first argument of [eq]. CPython from 3.9 on evaluates
    [e == x] instead; the two agree when [eq] is symmetric. The identity
    shortcut [x is e] is left out: the only use is on slabs, where [x] is
    a candidate the generator has just built and [e] an earlier one, never
    the same object. *)
Definition contains {A : Type} (eq : A -> A -> bool) (x : A) (xs : list A)
  : bool :=
  existsb (fun e => eq x e) xs.

(** The characters [str] produces for an integer. *)
Definition int_char (c : ascii) : bool :=
  existsb (Ascii.eqb c) (list_ascii_of_string "0123456789-").

Fixpoint int_string (s : string) : bool :=
  match s with
  | EmptyString => true
  | String c rest => int_char c && int_string rest
  end.

(** [c in s] for a character. *)
Fixpoint occurs (c : ascii) (s : string) : bool :=
  match s with
  | EmptyString => false
  | String a rest => Ascii.eqb c a || occurs c rest
  end.

End Py.

Import Py.

(** ** The pymatgen interface

    Everything the module calls in pymatgen. Loading, decorating,
    generating and writing may raise; the per-slab queries are pure.
    [Bulk] is the value held by a [Structure] object, [InputSettings] the
    bundle [(config_dict, potcar_functional, update_incar, update_potcar,
    update_kpoints)] handed to [DictSet]. *)

Class Pymatgen : Type := {
  Bulk : Type;
  Slab : Type;
  InputSettings : Type;
  (** [Structure.from_file(filename)] *)
  Structure_from_file : option string -> result Bulk;
  (** [struc.formula] *)
  formula : Bulk -> string;
  (** The three decorators; each yields the decorated value of the
      structure it was called on. *)
  add_oxidation_state_by_element : gmap string Z -> Bulk -> result Bulk;
  add_oxidation_state_by_site : list Z -> Bulk -> result Bulk;
  add_oxidation_state_by_guess : Z -> Bulk -> result Bulk;
  (** [SlabGenerator(struc, hkl, thickness, vacuum, lll_reduce=..,
      center_slab=..).get_slabs()] *)
  SlabGenerator_get_slabs :
    Bulk -> option (Z * Z * Z) -> Z -> Z -> bool -> bool -> result (list Slab);
  (** [generate_all_slabs(struc, max_index=.., min_slab_size=..,
      min_vacuum_size=.., lll_reduce=.., center_slab=..)] *)
  generate_all_slabs :
    Bulk -> option Z -> Z -> Z -> bool -> bool -> result (list Slab);
  (** [slab.is_polar()], [slab.is_symmetric()], [slab.miller_index],
      [slab.atomic_numbers] and [slab == other] *)
  is_polar : Slab -> bool;
  slab_is_symmetric : Slab -> bool;
  miller_index : Slab -> list Z;
  atomic_numbers : Slab -> list Z;
  slab_eq : Slab -> Slab -> bool;
  (** [slab.to(fmt='poscar', filename=..)] and
      [DictSet(structure=slab, ..).write_input(dir)]: whether the write
      goes through. *)
  slab_to_poscar : Slab -> string -> result unit;
  DictSet_write_input : Slab -> InputSettings -> string -> result unit
}.

Section Generation.

Context {Lib : Pymatgen}.

(** ** The world: heap of structures, warnings, file system trace *)

Definition loc : Type := positive.

Inductive fs_event : Type :=
| Makedirs (path : string)
| WritePoscar (path : string) (slab : Slab)
| WriteInput (dir : string) (slab : Slab) (settings : InputSettings).

Record World : Type := mkWorld {
  heap : gmap loc Bulk;
  (** [warnings.formatwarning is custom_formatwarning] *)
  formatwarning_custom : bool;
  (** the messages passed to [warnings.warn], oldest first *)
  warn_log : list string;
  (** [os.getcwd()] *)
  cwd : string;
  (** calls that touch the file system, oldest first *)
  fs_log : list fs_event
}.

(** State and exception monad. *)
Definition M (A : Type) : Type := World -> World * result A.

Definition ret {A : Type} (a : A) : M A := fun w => (w, Ok a).

Definition raise {A : Type} (e : exn) : M A := fun w => (w, Raise e).

Definition bind {A B : Type} (m : M A) (k : A -> M B) : M B :=
  fun w =>
    match m w with
    | (w', Ok a) => k a w'
    | (w', Raise e) => (w', Raise e)
    end.

(** An external call that may raise and leaves the world alone. *)
Definition lift {A : Type} (r : result A) : M A := fun w => (w, r).

Notation "'do' x <- m ; k" := (bind m (fun x => k))
  (at level 10, x binder, m at level 100, k at level 200).
Notation "'exec' m ; k" := (bind m (fun _ => k))
  (at level 10, m at level 100, k at level 200).

(** [for x in xs: body], threading the local variables [s] that the body
    updates. *)
Fixpoint for_each {A S : Type} (xs : list A) (body : A -> S -> M S) (s : S)
  : M S :=
  match xs with
  | [] => ret s
  | x :: rest => do s' <- body x s ; for_each rest body s'
  end.

(** [for x in o: body] when [o] may be [None]. *)
Definition for_in {A S : Type} (o : option (list A)) (body : A -> S -> M S)
  (s : S) : M S :=
  match o with
  | None => raise (TypeError "'NoneType' object is not iterable")
  | Some xs => for_each xs body s
  end.

(** Operations on the world. *)
Definition getcwd : M string := fun w => (w, Ok (cwd w)).

Definition log_fs (e : fs_event) : M unit :=
  fun w => (mkWorld (heap w) (formatwarning_custom w) (warn_log w) (cwd w)
              (append (fs_log w) e), Ok tt).

(** [os.makedirs(path, exist_ok=True)] *)
Definition makedirs (path : string) : M unit := log_fs (Makedirs path).

Definition to_poscar (slab : Slab) (filename : string) : M unit :=
  exec lift (slab_to_poscar slab filename) ;
  log_fs (WritePoscar filename slab).

Definition write_input (slab : Slab) (settings : InputSettings)
  (dir : string) : M unit :=
  exec lift (DictSet_write_input slab settings dir) ;
  log_fs (WriteInput dir slab settings).

(** [warnings.formatwarning = custom_formatwarning] *)
Definition set_formatwarning : M unit :=
  fun w => (mkWorld (heap w) true (warn_log w) (cwd w) (fs_log w), Ok tt).

(** [warnings.warn(msg)] *)
Definition warn (msg : string) : M unit :=
  fun w => (mkWorld (heap w) (formatwarning_custom w) (append (warn_log w) msg)
              (cwd w) (fs_log w), Ok tt).

(** A new [Structure] object holding [b]. *)
Definition alloc (b : Bulk) : M loc :=
  fun w =>
    let l := fresh (dom (heap w)) in
    (mkWorld (<[l := b]> (heap w)) (formatwarning_custom w) (warn_log w)
       (cwd w) (fs_log w), Ok l).

(** Reading an attribute of the object at [l]. *)
Definition deref (l : loc) : M Bulk :=
  fun w =>
    match heap w !! l with
    | Some b => (w, Ok b)
    | None => (w, Raise (AttributeError "not a Structure"))
    end.

(** Calling a mutating method [f] on the object at [l]: the object is
    updated in place when [f] returns. *)
Definition mutate (l : loc) (f : Bulk -> result Bulk) : M unit :=
  do b <- deref l ;
  do b' <- lift (f b) ;
  fun w => (mkWorld (<[l := b']> (heap w)) (formatwarning_custom w)
              (warn_log w) (cwd w) (fs_log w), Ok tt).

(** ** [custom_formatwarning] *)

Definition custom_formatwarning (message : string) : string :=
  "UserWarning: " ++ message ++ String "010"%char "".

(** ** [oxidation_states]

    [type(ox_states) is dict] holds exactly for [PyDict], and
    [type(ox_states) is list] exactly for [PyList]. *)

Definition oxidation_states (structure : loc) (ox_states : pyobj) : M loc :=
  exec (match ox_states with
        | PyDict d => mutate structure (add_oxidation_state_by_element d)
        | PyList l => mutate structure (add_oxidation_state_by_site l)
        | _ => mutate structure (add_oxidation_state_by_guess (-1))
        end) ;
  ret structure.

(** ** Candidate records and their names *)

(** The dict built for every retained slab. *)
Record slab_dict : Type := mk_slab_dict {
  d_hkl : string;
  d_slab_t : Z;
  d_vac_t : Z;
  d_s_index : nat;
  d_slab : Slab
}.

(** [''.join(map(str, slab.miller_index))] *)
Definition hkl_string (slab : Slab) : string :=
  join "" (map str_int (miller_index slab)).

Definition candidate (thickness vacuum : Z) (i : nat) (slab : Slab)
  : slab_dict :=
  mk_slab_dict (hkl_string slab) thickness vacuum i slab.

(** ['{}_{}_{}_{}'.format(hkl, slab_t, vac_t, s_index)] *)
Definition slab_name (d : slab_dict) : string :=
  d_hkl d ++ "_" ++ str_int (d_slab_t d) ++ "_" ++ str_int (d_vac_t d)
    ++ "_" ++ str_nat (d_s_index d).

(** ['{}/{}_{}_{}'.format(hkl, slab_t, vac_t, s_index)] *)
Definition slab_folder (d : slab_dict) : string :=
  d_hkl d ++ "/" ++ str_int (d_slab_t d) ++ "_" ++ str_int (d_vac_t d)
    ++ "_" ++ str_nat (d_s_index d).

(** ['{}/POSCAR_{}_{}_{}_{}.vasp'.format(bulk_name, hkl, slab_t, vac_t,
    s_index)] *)
Definition flat_filename (bulk_name : string) (d : slab_dict) : string :=
  bulk_name ++ "/POSCAR_" ++ d_hkl d ++ "_" ++ str_int (d_slab_t d) ++ "_"
    ++ str_int (d_vac_t d) ++ "_" ++ str_nat (d_s_index d) ++ ".vasp".

(** ** Enumeration of the candidates *)

(** Body of [for i, slab in enumerate(slabs)] in [get_one_hkl_slabs]. *)
Definition select_one_hkl (is_symmetric : bool) (thickness vacuum : Z)
  (entry : nat * Slab) (provisional : list slab_dict) : M (list slab_dict) :=
  let '(i, slab) := entry in
  if is_symmetric then
    if slab_is_symmetric slab && negb (is_polar slab) then
      ret (append provisional (candidate thickness vacuum i slab))
    else ret provisional
  else
    if negb (is_polar slab) then
      ret (append provisional (candidate thickness vacuum i slab))
    else ret provisional.

(** Body of [for i, slab in enumerate(all_slabs)] in [get_all_slabs]. *)
Definition select_all (is_symmetric : bool) (thickness vacuum : Z)
  (entry : nat * Slab) (provisional : list slab_dict) : M (list slab_dict) :=
  let '(i, slab) := entry in
  if is_symmetric then
    if Bool.eqb (is_polar slab) false && Bool.eqb (slab_is_symmetric slab) true
    then ret (append provisional (candidate thickness vacuum i slab))
    else ret provisional
  else
    if negb (is_polar slab) then
      ret (append provisional (candidate thickness vacuum i slab))
    else ret provisional.

(** The loop nest of [get_one_hkl_slabs]: vacuums outside, thicknesses
    inside, one generator call per pair. *)
Definition provisional_one_hkl (struc : loc) (hkl : option (Z * Z * Z))
  (thicknesses vacuums : option (list Z)) (lll_reduce center_slab : bool)
  (is_symmetric : bool) : M (list slab_dict) :=
  for_in vacuums (fun vacuum provisional =>
    for_in thicknesses (fun thickness provisional =>
      do b <- deref struc ;
      do slabs <- lift (SlabGenerator_get_slabs b hkl thickness vacuum
                          lll_reduce center_slab) ;
      for_each (enumerate slabs)
        (select_one_hkl is_symmetric thickness vacuum) provisional)
      provisional)
    [].

(** The loop nest of [get_all_slabs]. *)
Definition provisional_all (struc : loc) (max_index : option Z)
  (thicknesses vacuums : option (list Z)) (lll_reduce center_slab : bool)
  (is_symmetric : bool) : M (list slab_dict) :=
  for_in vacuums (fun vacuum provisional =>
    for_in thicknesses (fun thickness provisional =>
      do b <- deref struc ;
      do all_slabs <- lift (generate_all_slabs b max_index thickness vacuum
                              lll_reduce center_slab) ;
      for_each (enumerate all_slabs)
        (select_all is_symmetric thickness vacuum) provisional)
      provisional)
    [].

(** ** Deduplication *)

(** The four lists of the uniqueness loop; [repeats] is the source's
    [repeat]. *)
Record dedup_state : Type := mk_dedup_state {
  unique_list : list Slab;
  unique_list_of_dicts : list slab_dict;
  repeats : list string;
  large : list string
}.

Definition dedup_init : dedup_state := mk_dedup_state [] [] [] [].

(** One iteration of [for slab in provisional], up to and including the
    [else] branch. *)
Definition dedup_step (max_size : Z) (slab : slab_dict) (st : dedup_state)
  : dedup_state :=
  if negb (contains slab_eq (d_slab slab) (unique_list st)) then
    let atoms := Z.of_nat (length (atomic_numbers (d_slab slab))) in
    mk_dedup_state
      (append (unique_list st) (d_slab slab))
      (append (unique_list_of_dicts st) slab)
      (repeats st)
      (if atoms >? max_size then append (large st) (slab_name slab)
       else large st)
  else
    mk_dedup_state
      (unique_list st)
      (unique_list_of_dicts st)
      (append (repeats st) (slab_name slab))
      (large st).

Definition repeat_message (names : list string) : string :=
  "Not all combinations of hkl or slab/vac thicknesses "
  ++ "were generated because of repeat structures. "
  ++ "The repeat slabs are: " ++ join ", " names.

Definition large_message (names : list string) : string :=
  "Some generated slabs exceed the max size specified."
  ++ " Slabs that exceed the max size are: " ++ join ", " names.

(** A list is true when it is not empty. *)
Definition nonempty {A : Type} (xs : list A) : bool :=
  match xs with
  | [] => false
  | _ :: _ => true
  end.

(** The block [if repeat: ...] followed by [if large: ...]. *)
Definition warn_repeat_large (st : dedup_state) : M unit :=
  exec (if nonempty (repeats st) then
          exec set_formatwarning ;
          warn (repeat_message (repeats st))
        else ret tt) ;
  if nonempty (large st) then
    exec set_formatwarning ;
    warn (large_message (large st))
  else ret tt.

(** ** The two drivers *)

(** The keyword arguments, with the defaults of the signatures. *)
Record options : Type := mk_options {
  make_fols : bool;
  make_input_files : bool;
  max_size : Z;
  lll_reduce : bool;
  center_slab : bool;
  ox_states : pyobj;
  is_symmetric : bool;
  settings : InputSettings
}.

Definition default_options (defaults : InputSettings) : options :=
  mk_options false false 500 true true PyNone true defaults.

Definition missing_one_hkl : string :=
  "One or more of the required arguments (structure, "
  ++ "hkl, thicknesses, vacuums) were not supplied.".

Definition missing_all : string :=
  "One or more of the required arguments (structure, "
  ++ "max_index, thicknesses, vacuums) were not supplied.".

(** The uniqueness loop of [get_one_hkl_slabs]. *)
Definition unique_pass_one_hkl (max_size : Z) (provisional : list slab_dict)
  : M dedup_state :=
  for_each provisional
    (fun slab st => ret (dedup_step max_size slab st))
    dedup_init.

(** The uniqueness loop of [get_all_slabs]: the two warning blocks are
    part of the loop body. *)
Definition unique_pass_all (max_size : Z) (provisional : list slab_dict)
  : M dedup_state :=
  for_each provisional
    (fun slab st =>
       let st' := dedup_step max_size slab st in
       exec warn_repeat_large st' ;
       ret st')
    dedup_init.

(** The output block of [get_one_hkl_slabs]. *)
Definition write_one_hkl (o : options) (bulk_name : string)
  (unique_list_of_dicts : list slab_dict) : M unit :=
  if make_fols o || make_input_files o then
    for_each unique_list_of_dicts
      (fun slab _ =>
         do here <- getcwd ;
         exec makedirs (os_path_join here (slab_folder slab)) ;
         if make_input_files o then
           write_input (d_slab slab) (settings o) (slab_folder slab)
         else
           to_poscar (d_slab slab) (slab_folder slab ++ "/POSCAR"))
      tt
  else
    do here <- getcwd ;
    exec makedirs (os_path_join here bulk_name) ;
    for_each unique_list_of_dicts
      (fun slab _ => to_poscar (d_slab slab) (flat_filename bulk_name slab))
      tt.

(** The output block of [get_all_slabs]. *)
Definition write_all (o : options) (bulk_name : string)
  (unique_list_of_dicts : list slab_dict) : M unit :=
  if make_fols o || make_input_files o then
    for_each unique_list_of_dicts
      (fun slab _ =>
         do here <- getcwd ;
         exec makedirs (os_path_join here (slab_folder slab)) ;
         if make_input_files o then
           do here <- getcwd ;
           write_input (d_slab slab) (settings o)
             (os_path_join here (slab_folder slab))
         else
           to_poscar (d_slab slab) (slab_folder slab ++ "/POSCAR"))
      tt
  else
    do here <- getcwd ;
    exec makedirs (os_path_join here bulk_name) ;
    for_each unique_list_of_dicts
      (fun slab _ => to_poscar (d_slab slab) (flat_filename bulk_name slab))
      tt.

(** Everything in [get_one_hkl_slabs] below the check of the arguments. *)
Definition get_one_hkl_slabs_body (structure : option string)
  (hkl : option (Z * Z * Z)) (thicknesses vacuums : option (list Z))
  (o : options) : M unit :=
  do b <- lift (Structure_from_file structure) ;
  do struc <- alloc b ;
  do b0 <- deref struc ;
  let bulk_name := remove_spaces (formula b0) in
  do struc <- oxidation_states struc (ox_states o) ;
  do provisional <- provisional_one_hkl struc hkl thicknesses vacuums
                      (lll_reduce o) (center_slab o) (is_symmetric o) ;
  do st <- unique_pass_one_hkl (max_size o) provisional ;
  exec warn_repeat_large st ;
  write_one_hkl o bulk_name (unique_list_of_dicts st).

Definition get_one_hkl_slabs (structure : option string)
  (hkl : option (Z * Z * Z)) (thicknesses vacuums : option (list Z))
  (o : options) : M unit :=
  if negb (any [truthy_str structure; truthy_tuple3 hkl;
                truthy_list thicknesses; truthy_list vacuums])
  then raise (ValueError missing_one_hkl)
  else get_one_hkl_slabs_body structure hkl thicknesses vacuums o.

(** Everything in [get_all_slabs] below the check of the arguments. *)
Definition get_all_slabs_body (structure : option string)
  (max_index : option Z) (thicknesses vacuums : option (list Z))
  (o : options) : M unit :=
  do b <- lift (Structure_from_file structure) ;
  do struc <- alloc b ;
  do b0 <- deref struc ;
  let bulk_name := remove_spaces (formula b0) in
  do struc <- oxidation_states struc (ox_states o) ;
  do provisional <- provisional_all struc max_index thicknesses vacuums
                      (lll_reduce o) (center_slab o) (is_symmetric o) ;
  do st <- unique_pass_all (max_size o) provisional ;
  write_all o bulk_name (unique_list_of_dicts st).

Definition get_all_slabs (structure : option string) (max_index : option Z)
  (thicknesses vacuums : option (list Z)) (o : options) : M unit :=
  if negb (any [truthy_str structure; truthy_int max_index;
                truthy_list thicknesses; truthy_list vacuums])
  then raise (ValueError missing_all)
  else get_all_slabs_body structure max_index thicknesses vacuums o.

(** ** Reference descriptions used in the statements *)

(** The slabs a generator call returned; nothing when it raised. *)
Definition returned {A : Type} (r : result (list A)) : list A :=
  match r with
  | Ok xs => xs
  | Raise _ => []
  end.

(** The selection policy: non-polar, and inversion-symmetric when symmetry
    is asked for. *)
Definition selected (is_symmetric : bool) (slab : Slab) : bool :=
  negb (is_polar slab)
  && (if is_symmetric then slab_is_symmetric slab else true).

(** The records of one (thickness, vacuum) batch: the selected slabs, each
    with its position in the generator's list. *)
Definition batch (is_symmetric : bool) (thickness vacuum : Z)
  (slabs : list Slab) : list slab_dict :=
  map (fun entry => candidate thickness vacuum (fst entry) (snd entry))
    (List.filter (fun entry => selected is_symmetric (snd entry))
       (enumerate slabs)).

(** All batches, vacuums outside and thicknesses inside. *)
Definition expected_candidates (gen : Z -> Z -> result (list Slab))
  (is_symmetric : bool) (vacuums thicknesses : list Z) : list slab_dict :=
  flat_map
    (fun vacuum =>
       flat_map
         (fun thickness =>
            batch is_symmetric thickness vacuum
              (returned (gen thickness vacuum)))
         thicknesses)
    vacuums.

(** The uniqueness loop as a fold. *)
Definition dedup (max_size : Z) (provisional : list slab_dict)
  : dedup_state :=
  fold_left (fun st slab => dedup_step max_size slab st) provisional
    dedup_init.

(** More atoms than [max_size]. *)
Definition oversize (max_size : Z) (d : slab_dict) : bool :=
  Z.of_nat (length (atomic_numbers (d_slab d))) >? max_size.

(** The decorator [oxidation_states] ends up calling. *)
Definition chosen_decorator (ox_states : pyobj) : Bulk -> result Bulk :=
  match ox_states with
  | PyDict d => add_oxidation_state_by_element d
  | PyList l => add_oxidation_state_by_site l
  | _ => add_oxidation_state_by_guess (-1)
  end.

(** The warnings one call of [warn_repeat_large] passes to
    [warnings.warn]. *)
Definition warnings_of (st : dedup_state) : list string :=
  ((if nonempty (repeats st) then [repeat_message (repeats st)] else [])
   ++ (if nonempty (large st) then [large_message (large st)] else []))%list.

(** The world after the object at [l] has been given the value [b]. *)
Definition updated (w : World) (l : loc) (b : Bulk) : World :=
  mkWorld (<[l := b]> (heap w)) (formatwarning_custom w) (warn_log w)
    (cwd w) (fs_log w).

(** The selection policy as a proposition. *)
Definition passes_policy (is_symmetric : bool) (slab : Slab) : Prop :=
  is_polar slab = false
  /\ (is_symmetric = true -> slab_is_symmetric slab = true).

(** A later entry of the list never compares equal to an earlier one. *)
Definition later_differs (us : list Slab) : Prop :=
  forall i j x y,
    us !! i = Some x -> us !! j = Some y -> (i < j)%nat ->
    slab_eq y x = false.

(** The world after [msgs] have been passed to [warnings.warn], each
    preceded by the installation of the custom formatter. *)
Definition warned (w : World) (msgs : list string) : World :=
  mkWorld (heap w) (formatwarning_custom w || nonempty msgs)
    (warn_log w ++ msgs)%list (cwd w) (fs_log w).

(** The warnings of a loop that runs [warn_repeat_large] after every
    step, starting from the lists [st]. *)
Fixpoint loop_warnings (max_size : Z) (provisional : list slab_dict)
  (st : dedup_state) : list string :=
  match provisional with
  | [] => []
  | slab :: rest =>
      let st' := dedup_step max_size slab st in
      (warnings_of st' ++ loop_warnings max_size rest st')%list
  end.

(** The world after the file-system calls [events]. *)
Definition logged (w : World) (events : list fs_event) : World :=
  mkWorld (heap w) (formatwarning_custom w) (warn_log w) (cwd w)
    (fs_log w ++ events)%list.

(** The world after a structure holding [b] has been loaded into a new
    object. *)
Definition loaded (w : World) (b : Bulk) : World :=
  updated w (fresh (dom (heap w))) b.

(** The flat-mode write of one record. *)
Definition flat_write (bulk_name : string) (d : slab_dict) : fs_event :=
  WritePoscar (flat_filename bulk_name d) (d_slab d).

(** File-system events that write a slab. *)
Definition is_write (e : fs_event) : bool :=
  match e with
  | Makedirs _ => false
  | WritePoscar _ _ | WriteInput _ _ _ => true
  end.

End Generation.

(** ** A small library for concrete runs

    Slabs are records whose [geometry] number decides equality; the
    generator is a table from (thickness, vacuum) to slabs. *)

Module Toy.

Record toy_bulk : Type := mk_toy_bulk {
  toy_formula : string;
  toy_oxidation : string
}.

Record toy_slab : Type := mk_toy_slab {
  geometry : nat;
  polar : bool;
  inversion : bool;
  miller : list Z;
  n_atoms : nat
}.

Definition same_geometry (a b : toy_slab) : bool :=
  Nat.eqb (geometry a) (geometry b).

Definition decorate (how : string) (b : toy_bulk) : result toy_bulk :=
  Ok (mk_toy_bulk (toy_formula b) how).

Definition library (gen : Z -> Z -> list toy_slab)
  (eq : toy_slab -> toy_slab -> bool) : Pymatgen := {|
  Bulk := toy_bulk;
  Slab := toy_slab;
  InputSettings := unit;
  Structure_from_file := fun filename =>
    match filename with
    | Some _ => Ok (mk_toy_bulk "Fe2 O3" "")
    | None => Raise (LibraryError "cannot read None")
    end;
  formula := toy_formula;
  add_oxidation_state_by_element := fun _ => decorate "by_element";
  add_oxidation_state_by_site := fun _ => decorate "by_site";
  add_oxidation_state_by_guess := fun _ => decorate "by_guess";
  SlabGenerator_get_slabs := fun _ hkl thickness vacuum _ _ =>
    match hkl with
    | Some _ => Ok (gen thickness vacuum)
    | None => Raise (LibraryError "no Miller index")
    end;
  generate_all_slabs := fun _ max_index thickness vacuum _ _ =>
    match max_index with
    | Some _ => Ok (gen thickness vacuum)
    | None => Raise (LibraryError "no maximum index")
    end;
  is_polar := polar;
  slab_is_symmetric := inversion;
  miller_index := miller;
  atomic_numbers := fun s => List.repeat 8 (n_atoms s);
  slab_eq := eq;
  slab_to_poscar := fun _ _ => Ok tt;
  DictSet_write_input := fun _ _ _ => Ok tt
|}.

(** One non-polar, symmetric (0,0,1) termination of [n] atoms with
    geometry [g]. *)
Definition good (g n : nat) : toy_slab := mk_toy_slab g false true [0; 0; 1] n.

(** The same termination whatever the thickness and vacuum. *)
Definition gen_same (thickness vacuum : Z) : list toy_slab := [good 7 24].

(** A polar termination first, then a good one whose size follows the
    thickness. *)
Definition gen_grow (thickness vacuum : Z) : list toy_slab :=
  [mk_toy_slab 0 true true [0; 0; 1] 12;
   good (Z.to_nat (thickness + vacuum)) (Z.to_nat thickness)].

(** Only polar or asymmetric terminations. *)
Definition gen_bad (thickness vacuum : Z) : list toy_slab :=
  [mk_toy_slab 1 true true [0; 0; 1] 12;
   mk_toy_slab 2 false false [0; 0; 1] 12].

End Toy.

Definition world0 {Lib : Pymatgen} : World := mkWorld ∅ false [] "/home/user" [].

(** The arguments used in the concrete runs. *)
Definition toy_same : Pymatgen := Toy.library Toy.gen_same Toy.same_geometry.
Definition toy_grow : Pymatgen := Toy.library Toy.gen_grow Toy.same_geometry.
Definition toy_bad : Pymatgen := Toy.library Toy.gen_bad Toy.same_geometry.

Definition toy_bulk0 : Toy.toy_bulk := Toy.mk_toy_bulk "Fe2 O3" "".

(** A world in which object 1 is an undecorated structure. *)
Definition world1 (L : Pymatgen) (b : @Bulk L) : @World L :=
  @mkWorld L {[ 1%positive := b ]} false [] "/home/user" [].

(** ** Descriptions of failures and of the folder layout *)

Section Outcomes.

Context {Lib : Pymatgen}.

(** The exception of the first generator call that raises, the calls
    being made in the order of the loop nest. *)
Fixpoint first_raise_in (gen : Z -> result (list Slab)) (ts : list Z)
  : option exn :=
  match ts with
  | [] => None
  | t :: rest =>
      match gen t with
      | Raise e => Some e
      | Ok _ => first_raise_in gen rest
      end
  end.

Fixpoint first_raise (gen : Z -> Z -> result (list Slab)) (vs ts : list Z)
  : option exn :=
  match vs with
  | [] => None
  | v :: rest =>
      match first_raise_in (fun t => gen t v) ts with
      | Some e => Some e
      | None => first_raise gen rest ts
      end
  end.

(** The calls made for one record when folders are asked for. *)
Definition folder_poscar_events (here : string) (d : slab_dict)
  : list fs_event :=
  [Makedirs (os_path_join here (slab_folder d));
   WritePoscar (slab_folder d ++ "/POSCAR") (d_slab d)].

(** The calls made for one record when input files are asked for, in
    [get_one_hkl_slabs] and in [get_all_slabs]. *)
Definition input_events_one_hkl (here : string) (cfg : InputSettings)
  (d : slab_dict) : list fs_event :=
  [Makedirs (os_path_join here (slab_folder d));
   WriteInput (slab_folder d) (d_slab d) cfg].

Definition input_events_all (here : string) (cfg : InputSettings)
  (d : slab_dict) : list fs_event :=
  [Makedirs (os_path_join here (slab_folder d));
   WriteInput (os_path_join here (slab_folder d)) (d_slab d) cfg].

(** The message of the TypeError raised by iterating over None. *)
Definition not_iterable : string := "'NoneType' object is not iterable".

(** Two worlds that differ at most in the file-system trace. *)
Definition same_but_files (w w' : World) : Prop :=
  heap w' = heap w /\ formatwarning_custom w' = formatwarning_custom w
  /\ warn_log w' = warn_log w /\ cwd w' = cwd w.

End Outcomes.

(** A library like [toy_grow] whose writer refuses the file [bad]. *)
Definition toy_refusing (bad : string) : Pymatgen := {|
  Bulk := Toy.toy_bulk;
  Slab := Toy.toy_slab;
  InputSettings := unit;
  Structure_from_file := @Structure_from_file toy_grow;
  formula := Toy.toy_formula;
  add_oxidation_state_by_element := fun _ => Toy.decorate "by_element";
  add_oxidation_state_by_site := fun _ => Toy.decorate "by_site";
  add_oxidation_state_by_guess := fun _ => Toy.decorate "by_guess";
  SlabGenerator_get_slabs := @SlabGenerator_get_slabs toy_grow;
  generate_all_slabs := @generate_all_slabs toy_grow;
  is_polar := Toy.polar;
  slab_is_symmetric := Toy.inversion;
  miller_index := Toy.miller;
  atomic_numbers := fun s => List.repeat 8 (Toy.n_atoms s);
  slab_eq := Toy.same_geometry;
  slab_to_poscar := fun _ filename =>
    if String.eqb filename bad then Raise (LibraryError "Permission denied")
    else Ok tt;
  DictSet_write_input := fun _ _ _ => Ok tt
|}.

(** The writer that refuses the second file of the flat layout. *)
Definition toy_refusing_second : Pymatgen :=
  toy_refusing "Fe2O3/POSCAR_001_12_15_1.vasp".

(** Options asking for folders, and for input files. *)
Definition folder_options : @options toy_grow :=
  @mk_options toy_grow true false 500 true true PyNone true tt.

Definition input_options : @options toy_grow :=
  @mk_options toy_grow false true 500 true true PyNone true tt.

(** The two candidates of [toy_grow] for thicknesses 10 and 12 and
    vacuum 15. *)
Definition cand10 (L : Pymatgen) (slab : @Slab L) : @slab_dict L :=
  @candidate L 10 15 1%nat slab.

Definition cand12 (L : Pymatgen) (slab : @Slab L) : @slab_dict L :=
  @candidate L 12 15 1%nat slab.

(** ** [surfaxe/convergence.py]: [slab_from_file] and [parse_fols]

    The calls into pymatgen, numpy, pandas and the operating system are
    fields of [Vasp]. Floats are an abstract type with the three
    operations the code uses; only their being zero is observed (division
    by zero raises). [parse_fols] has one effect, the CSV file it writes
    last: its result is that file, name and rows. *)

Module Convergence.

(** The exceptions of this module. [Library] is anything raised by a
    collaborator. *)
Inductive failure : Type :=
| ValueError (msg : string)
| TypeError (msg : string)
| IndexError (msg : string)
| ZeroDivisionError (msg : string)
| Library (msg : string).

Inductive outcome (A : Type) : Type :=
| Done (a : A)
| Fail (e : failure).
Arguments Done {A} a.
Arguments Fail {A} e.

Definition obind {A B : Type} (m : outcome A) (k : A -> outcome B)
  : outcome B :=
  match m with
  | Done a => k a
  | Fail e => Fail e
  end.

(** [for x in xs: body] in the exception monad. *)
Fixpoint ofor {A S : Type} (xs : list A) (body : A -> S -> outcome S) (s : S)
  : outcome S :=
  match xs with
  | [] => Done s
  | x :: rest => obind (body x s) (ofor rest body)
  end.

(** The members of the tuples [os.walk] yields. *)
Inductive item : Type :=
| IStr (s : string)
| IList (l : list string).

(** [a, b = entry]. *)
Definition unpack2 (entry : list item) : outcome (item * item) :=
  match entry with
  | [a; b] => Done (a, b)
  | [] | [_] => Fail (ValueError "not enough values to unpack")
  | _ :: _ :: _ :: _ =>
      Fail (ValueError "too many values to unpack (expected 2)")
  end.

(** [s.split(sep)] for a one-character separator. *)
Fixpoint split (sep : ascii) (s : string) : list string :=
  match s with
  | EmptyString => [EmptyString]
  | String c rest =>
      if Ascii.eqb c sep then EmptyString :: split sep rest
      else match split sep rest with
           | [] => [String c EmptyString]
           | first :: others => String c first :: others
           end
  end.

(** Whitespace, as [str.strip] sees it. *)
Definition is_space (c : ascii) : bool :=
  existsb (Ascii.eqb c)
    [" "%char; "009"%char; "010"%char; "011"%char; "012"%char; "013"%char].

Fixpoint lstrip (s : string) : string :=
  match s with
  | EmptyString => EmptyString
  | String c rest => if is_space c then lstrip rest else s
  end.

Fixpoint rstrip (s : string) : string :=
  match s with
  | EmptyString => EmptyString
  | String c rest =>
      let rest' := rstrip rest in
      if is_space c && String.eqb rest' "" then EmptyString
      else String c rest'
  end.

Definition strip (s : string) : string := rstrip (lstrip s).

(** [xs[i]] for [i >= 0] and [xs[-k]] for [k > 0]. *)
Definition index {A : Type} (xs : list A) (i : nat) : outcome A :=
  match xs !! i with
  | Some x => Done x
  | None => Fail (IndexError "list index out of range")
  end.

Definition index_from_end {A : Type} (xs : list A) (k : nat) : outcome A :=
  if (length xs <? k)%nat then Fail (IndexError "list index out of range")
  else index xs (length xs - k).

Class Vasp : Type := {
  Float : Type;
  float_of_int : Z -> Float;
  fsub : Float -> Float -> Float;
  fmul : Float -> Float -> Float;
  fdiv : Float -> Float -> Float;
  (** [x == 0] *)
  float_is_zero : Float -> bool;
  (** the literal [16.02] *)
  ev_per_a2_to_j_per_m2 : Float;
  Structure : Type;
  SlabObject : Type;
  Run : Type;
  (** [Structure.from_file(structure)] *)
  Structure_from_file : string -> outcome Structure;
  (** [Slab(slab_input.lattice, .., hkl, .., shift=0, scale_factor=..,
      site_properties=..)] *)
  Slab_of : Structure -> option (list Z) -> outcome SlabObject;
  surface_area : SlabObject -> Float;
  (** [Vasprun(vsp_path)], [vsp.as_dict()['nsites']], [vsp.final_energy] *)
  Vasprun : string -> outcome Run;
  nsites : Run -> Z;
  final_energy : Run -> Float;
  (** the tuples [os.walk('.')] yields *)
  os_walk : list (list item);
  (** [list(open(path, 'r'))] *)
  read_lines : string -> outcome (list string)
}.

Section Functions.

Context {V : Vasp}.

(** [a / b] on floats. *)
Definition divide (a b : Float) : outcome Float :=
  if float_is_zero b then Fail (ZeroDivisionError "float division by zero")
  else Done (fdiv a b).

Definition slab_from_file (structure : string) (hkl : option (list Z))
  : outcome SlabObject :=
  obind (Structure_from_file structure) (fun slab_input =>
  Slab_of slab_input hkl).

(** One dict of [df_list]. *)
Record row : Type := mk_row {
  slab_thickness : string;
  vac_thickness : string;
  slab_index : string;
  surface_energy : Float;
  slab_toten : Float;
  slab_per_atom : Float;
  time_taken : string
}.

(** The truth value of [bulk_per_atom]. *)
Definition truthy_float (o : option Float) : bool :=
  match o with
  | None => false
  | Some x => negb (float_is_zero x)
  end.

(** [bulk_per_atom * atoms]. *)
Definition times_atoms (bulk_per_atom : option Float) (atoms : Z)
  : outcome Float :=
  match bulk_per_atom with
  | None =>
      Fail (TypeError "unsupported operand type(s) for *: NoneType and int")
  | Some x => Done (fmul x (float_of_int atoms))
  end.

(** The body of [for fol in fols] for a folder that is not skipped. *)
Definition parse_folder (hkl : option (list Z)) (bulk_per_atom : option Float)
  (root fol : string) : outcome row :=
  let path := os_path_join root fol in
  let vsp_path := path ++ "/vasprun.xml" in
  obind (Vasprun vsp_path) (fun vsp =>
  obind (slab_from_file vsp_path hkl) (fun slab =>
  let area := surface_area slab in
  let atoms := nsites vsp in
  let slab_energy := final_energy vsp in
  obind (divide slab_energy (float_of_int atoms)) (fun energy_per_atom =>
  obind (times_atoms bulk_per_atom atoms) (fun bulk_energy =>
  obind (divide (fsub slab_energy bulk_energy)
           (fmul (float_of_int 2) area)) (fun per_area =>
  let surface_energy := fmul per_area ev_per_a2_to_j_per_m2 in
  let slab_vac_index := split "_"%char fol in
  obind (read_lines (path ++ "/OUTCAR")) (fun lines =>
  obind (index_from_end lines 8) (fun line8 =>
  let line := split ":"%char line8 in
  obind (index slab_vac_index 0) (fun thickness =>
  obind (index slab_vac_index 1) (fun vacuum =>
  obind (index slab_vac_index 2) (fun i =>
  obind (index line 1) (fun time =>
  Done (mk_row thickness vacuum i surface_energy slab_energy energy_per_atom
          (strip time))))))))))))).

(** The values [for fol in fols] goes through: the elements of a list,
    the characters of a string. *)
Definition iterate (fols : item) : list string :=
  match fols with
  | IList names => names
  | IStr s => map (fun c => String c EmptyString) (list_ascii_of_string s)
  end.

(** [fol == root] for an unpacked [root]. *)
Definition same_as (root : item) (fol : string) : bool :=
  match root with
  | IStr r => String.eqb fol r
  | IList _ => false
  end.

(** The body of [for root, fols in os.walk('.')]. *)
Definition walk_step (hkl : option (list Z)) (bulk_per_atom : option Float)
  (entry : list item) (df_list : list row) : outcome (list row) :=
  obind (unpack2 entry) (fun unpacked =>
  let '(root, fols) := unpacked in
  ofor (iterate fols)
    (fun fol df_list =>
       if negb (any [same_as root fol; String.eqb fol ".ipynb_checkpoints"])
       then
         match root with
         | IStr r =>
             obind (parse_folder hkl bulk_per_atom r fol) (fun d =>
             Done (append df_list d))
         | IList _ => Fail (TypeError "expected str, not list")
         end
       else Done df_list)
    df_list).

Definition missing_parse_fols : string :=
  "One or more of the required arguments (bulk_per_atom, "
  ++ "hkl) were not supplied.".

(** [''.join(map(str, hkl))]. *)
Definition hkl_sorted (hkl : option (list Z)) : outcome string :=
  match hkl with
  | None => Fail (TypeError "'NoneType' object is not iterable")
  | Some h => Done (join "" (map str_int h))
  end.

(** [parse_fols]: the CSV file written, as (name, rows). *)
Definition parse_fols (hkl : option (list Z)) (bulk_per_atom : option Float)
  : outcome (string * list row) :=
  if negb (any [truthy_list hkl; truthy_float bulk_per_atom])
  then Fail (ValueError missing_parse_fols)
  else
    obind (hkl_sorted hkl) (fun name =>
    obind (ofor os_walk (walk_step hkl bulk_per_atom) []) (fun df_list =>
    Done (name ++ "_data.csv", df_list))).


End Functions.

(** A run directory with one folder, for concrete runs. *)
Definition toy_vasp (walk : list (list item)) (outcar : list string) : Vasp := {|
  Float := Z;
  float_of_int := fun n => n;
  fsub := Z.sub;
  fmul := Z.mul;
  fdiv := Z.div;
  float_is_zero := fun x => x =? 0;
  ev_per_a2_to_j_per_m2 := 16;
  Structure := string;
  SlabObject := string;
  Run := string;
  Structure_from_file := fun f => Done f;
  Slab_of := fun s _ => Done s;
  surface_area := fun _ => 4;
  Vasprun := fun f => Done f;
  nsites := fun _ => 24;
  final_energy := fun _ => -480;
  os_walk := walk;
  read_lines := fun _ => Done outcar
|}.

(** A walk over a directory holding one folder. *)
Definition one_folder_walk : list (list item) :=
  [[IStr "."; IList ["10_15_0"]; IList []]].

Definition toy_outcar : list string :=
  ["a"; " Total CPU time used (sec):      123.456"; "b"; "c"; "d"; "e"; "f";
   "g"; "h"].

End Convergence.

(** * Properties *)

Section Properties.

Context {Lib : Pymatgen}.

Notation "'do' x <- m ; k" := (bind m (fun x => k))
  (at level 10, x binder, m at level 100, k at level 200).
Notation "'exec' m ; k" := (bind m (fun _ => k))
  (at level 10, m at level 100, k at level 200).

(** ** The monad and the loops *)

Lemma bind_ok {A B : Type} (m : M A) (k : A -> M B) w w' a :
  m w = (w', Ok a) -> bind m k w = k a w'.
Proof. intros Hm. unfold bind. now rewrite Hm. Qed.

Lemma bind_raise {A B : Type} (m : M A) (k : A -> M B) w w' e :
  m w = (w', Raise e) -> bind m k w = (w', Raise e).
Proof. intros Hm. unfold bind. now rewrite Hm. Qed.

Lemma for_each_ret {A S : Type} (f : A -> S -> S) xs s w :
  for_each xs (fun x s => ret (f x s)) s w
  = (w, Ok (fold_left (fun s x => f x s) xs s)).
Proof.
  revert s. induction xs as [|x xs IH]; intros s; simpl; [reflexivity|].
  unfold bind, ret at 1. apply IH.
Qed.

Lemma for_each_ext {A S : Type} (f g : A -> S -> M S) xs s w :
  (forall x s w, f x s w = g x s w) ->
  for_each xs f s w = for_each xs g s w.
Proof.
  intros Hfg. revert s w. induction xs as [|x xs IH]; intros s w; simpl;
    [reflexivity|].
  unfold bind. rewrite Hfg. destruct (g x s w) as [w' [s'|e]]; auto.
Qed.

Lemma mutate_ok l f w b b' :
  heap w !! l = Some b -> f b = Ok b' ->
  mutate l f w = (updated w l b', Ok tt).
Proof.
  intros Hl Hf. unfold mutate, bind, deref, lift. rewrite Hl, Hf. reflexivity.
Qed.

Lemma mutate_raise l f w b e :
  heap w !! l = Some b -> f b = Raise e -> mutate l f w = (w, Raise e).
Proof.
  intros Hl Hf. unfold mutate, bind, deref, lift. rewrite Hl, Hf. reflexivity.
Qed.

(** ** [oxidation_states] *)

Lemma oxidation_states_chosen structure ox :
  oxidation_states structure ox
  = (exec mutate structure (chosen_decorator ox) ; ret structure).
Proof. destruct ox; reflexivity. Qed.

Lemma chosen_decorator_guess ox :
  type_of ox <> TDict -> type_of ox <> TList ->
  chosen_decorator ox = add_oxidation_state_by_guess (-1).
Proof. destruct ox; simpl; intros Hd Hl; congruence. Qed.

Lemma oxidation_states_ok structure ox w b b' :
  heap w !! structure = Some b -> chosen_decorator ox b = Ok b' ->
  oxidation_states structure ox w = (updated w structure b', Ok structure).
Proof.
  intros Hl Hf. rewrite oxidation_states_chosen.
  erewrite bind_ok by (eapply mutate_ok; eassumption). reflexivity.
Qed.

Lemma oxidation_states_raise structure ox w b e :
  heap w !! structure = Some b -> chosen_decorator ox b = Raise e ->
  oxidation_states structure ox w = (w, Raise e).
Proof.
  intros Hl Hf. rewrite oxidation_states_chosen.
  erewrite bind_raise by (eapply mutate_raise; eassumption). reflexivity.
Qed.

(** C10. For a structure object [structure] holding [b]: with a dict the
    by-element decorator runs, with a list the by-site decorator, and with
    a value of any other exact type (None, a tuple, an instance of a
    subclass of dict or list, any other object) the call does not raise by
    itself but runs the guess decorator with [max_sites=-1], raising only
    what that decorator raises. In each of the three branches the object
    is updated in place and the reference returned is the one passed in. *)
Theorem oxidation_states_branches :
  forall (structure : loc) (ox : pyobj) (w : World) (b : Bulk),
    heap w !! structure = Some b ->
    (forall d b', ox = PyDict d ->
       add_oxidation_state_by_element d b = Ok b' ->
       oxidation_states structure ox w
       = (updated w structure b', Ok structure))
    /\ (forall l b', ox = PyList l ->
          add_oxidation_state_by_site l b = Ok b' ->
          oxidation_states structure ox w
          = (updated w structure b', Ok structure))
    /\ (type_of ox <> TDict -> type_of ox <> TList ->
          (forall b', add_oxidation_state_by_guess (-1) b = Ok b' ->
             oxidation_states structure ox w
             = (updated w structure b', Ok structure))
          /\ (forall e, add_oxidation_state_by_guess (-1) b = Raise e ->
                oxidation_states structure ox w = (w, Raise e))).
Proof.
  intros structure ox w b Hl. repeat split.
  - intros d b' -> Hf. now apply oxidation_states_ok with (b := b).
  - intros l b' -> Hf. now apply oxidation_states_ok with (b := b).
  - intros b' Hf. apply oxidation_states_ok with (b := b); [assumption|].
    now rewrite chosen_decorator_guess.
  - intros e Hf. apply oxidation_states_raise with (b := b); [assumption|].
    now rewrite chosen_decorator_guess.
Qed.

(** ** The check of the required arguments *)

Lemma get_one_hkl_slabs_all_missing structure hkl thicknesses vacuums o w :
  truthy_str structure = false -> truthy_tuple3 hkl = false ->
  truthy_list thicknesses = false -> truthy_list vacuums = false ->
  get_one_hkl_slabs structure hkl thicknesses vacuums o w
  = (w, Raise (ValueError missing_one_hkl)).
Proof.
  intros Hs Hh Ht Hv. unfold get_one_hkl_slabs, any. simpl.
  rewrite Hs, Hh, Ht, Hv. reflexivity.
Qed.

Lemma get_all_slabs_all_missing structure max_index thicknesses vacuums o w :
  truthy_str structure = false -> truthy_int max_index = false ->
  truthy_list thicknesses = false -> truthy_list vacuums = false ->
  get_all_slabs structure max_index thicknesses vacuums o w
  = (w, Raise (ValueError missing_all)).
Proof.
  intros Hs Hh Ht Hv. unfold get_all_slabs, any. simpl.
  rewrite Hs, Hh, Ht, Hv. reflexivity.
Qed.

(** C1, at the failing input. With [structure='bulk.cif'],
    [thicknesses=[10]], [vacuums=[15]] and the Miller index (respectively
    the maximum index) left at None, neither driver raises the ValueError
    of the check: each goes on to load the structure and run its body. *)
Theorem check_lets_missing_index_through :
  forall (o : options) (w : World),
    get_one_hkl_slabs (Some "bulk.cif") None (Some [10]) (Some [15]) o w
    = get_one_hkl_slabs_body (Some "bulk.cif") None (Some [10]) (Some [15])
        o w
    /\ get_all_slabs (Some "bulk.cif") None (Some [10]) (Some [15]) o w
       = get_all_slabs_body (Some "bulk.cif") None (Some [10]) (Some [15])
           o w.
Proof. intros o w. split; reflexivity. Qed.

(** ** Selection and enumeration *)

Lemma selected_iff is_sym slab :
  selected is_sym slab = true <-> passes_policy is_sym slab.
Proof.
  unfold selected, passes_policy.
  destruct is_sym, (is_polar slab), (slab_is_symmetric slab); simpl;
    intuition congruence.
Qed.

Lemma select_one_hkl_selected is_sym t v i slab prov :
  select_one_hkl is_sym t v (i, slab) prov
  = ret (if selected is_sym slab then append prov (candidate t v i slab)
         else prov).
Proof.
  unfold select_one_hkl, selected.
  destruct is_sym, (is_polar slab), (slab_is_symmetric slab); reflexivity.
Qed.

Lemma select_all_selected is_sym t v i slab prov :
  select_all is_sym t v (i, slab) prov
  = ret (if selected is_sym slab then append prov (candidate t v i slab)
         else prov).
Proof.
  unfold select_all, selected.
  destruct is_sym, (is_polar slab), (slab_is_symmetric slab); reflexivity.
Qed.

Lemma fold_left_select {A B : Type} (sel : A -> bool) (mk : A -> B) xs acc :
  fold_left (fun acc x => if sel x then append acc (mk x) else acc) xs acc
  = (acc ++ map mk (List.filter sel xs))%list.
Proof.
  revert acc. induction xs as [|x xs IH]; intros acc; simpl.
  - now rewrite app_nil_r.
  - rewrite IH. destruct (sel x); simpl; [|reflexivity].
    unfold append. now rewrite <- app_assoc.
Qed.

Lemma for_each_batch (body : nat * Slab -> list slab_dict -> M (list slab_dict))
  is_sym t v slabs prov w :
  (forall i slab acc,
     body (i, slab) acc
     = ret (if selected is_sym slab then append acc (candidate t v i slab)
            else acc)) ->
  for_each (enumerate slabs) body prov w
  = (w, Ok (prov ++ batch is_sym t v slabs)%list).
Proof.
  intros Hbody.
  rewrite for_each_ext with
    (g := fun e acc =>
            ret ((fun e acc =>
                    if selected is_sym (snd e)
                    then append acc (candidate t v (fst e) (snd e))
                    else acc) e acc)).
  - rewrite for_each_ret.
    now rewrite (fold_left_select (fun e => selected is_sym (snd e))
                   (fun e => candidate t v (fst e) (snd e))).
  - intros [i slab] acc w0. now rewrite Hbody.
Qed.

(** A loop whose every iteration extends the accumulator and leaves the
    world alone. *)
Lemma for_each_accumulate {A B : Type} (body : A -> list B -> M (list B))
  (g : A -> list B) xs acc w :
  (forall x acc, In x xs -> body x acc w = (w, Ok (acc ++ g x)%list)) ->
  for_each xs body acc w = (w, Ok (acc ++ flat_map g xs)%list).
Proof.
  revert acc. induction xs as [|x xs IH]; intros acc Hbody; simpl.
  - now rewrite app_nil_r.
  - erewrite bind_ok by (apply Hbody; now left).
    rewrite IH by (intros; apply Hbody; now right).
    now rewrite <- app_assoc.
Qed.

(** A property of the loop variables kept by every iteration that returns
    is kept by the loop when it returns. *)
Lemma for_each_invariant {A S : Type} (P : S -> Prop)
  (body : A -> S -> M S) xs s w w' s' :
  (forall x s w w' s', P s -> body x s w = (w', Ok s') -> P s') ->
  P s -> for_each xs body s w = (w', Ok s') -> P s'.
Proof.
  intros Hbody. revert s w. induction xs as [|x xs IH]; intros s w Hs; simpl.
  - unfold ret. intros [= <- <-]. assumption.
  - unfold bind. destruct (body x s w) as [w1 [s1|e]] eqn:Hx; [|discriminate].
    apply IH. eapply Hbody; eassumption.
Qed.

Lemma for_in_invariant {A S : Type} (P : S -> Prop)
  (body : A -> S -> M S) o s w w' s' :
  (forall x s w w' s', P s -> body x s w = (w', Ok s') -> P s') ->
  P s -> for_in o body s w = (w', Ok s') -> P s'.
Proof.
  destruct o as [xs|]; simpl; [apply for_each_invariant|discriminate].
Qed.

Lemma bind_inv {A B : Type} (m : M A) (k : A -> M B) w w' b :
  bind m k w = (w', Ok b) ->
  exists w1 a, m w = (w1, Ok a) /\ k a w1 = (w', Ok b).
Proof.
  unfold bind. destruct (m w) as [w1 [a|e]]; [|discriminate].
  intros Hk. now exists w1, a.
Qed.

Lemma select_keeps_policy is_sym t v i slab prov :
  Forall (fun d => passes_policy is_sym (d_slab d)) prov ->
  Forall (fun d => passes_policy is_sym (d_slab d))
    (if selected is_sym slab then append prov (candidate t v i slab)
     else prov).
Proof.
  intros Hprov. destruct (selected is_sym slab) eqn:Hsel; [|assumption].
  apply Forall_app. split; [assumption|].
  constructor; [|constructor]. simpl. now apply selected_iff.
Qed.

Lemma provisional_one_hkl_policy struc hkl thicknesses vacuums lll cs is_sym
  w w' prov :
  provisional_one_hkl struc hkl thicknesses vacuums lll cs is_sym w
  = (w', Ok prov) ->
  Forall (fun d => passes_policy is_sym (d_slab d)) prov.
Proof.
  unfold provisional_one_hkl.
  apply for_in_invariant; [|constructor].
  intros vacuum s0 w0 w1 s1 Hs0. apply for_in_invariant; [|assumption].
  clear. intros thickness s0 w0 w1 s1 Hs0 Hrun.
  apply bind_inv in Hrun as (w2 & b & _ & Hrun).
  apply bind_inv in Hrun as (w3 & slabs & _ & Hrun).
  revert Hrun. apply for_each_invariant; [|assumption].
  clear. intros [i slab] s0 w0 w1 s1 Hs0.
  rewrite select_one_hkl_selected. unfold ret. intros [= <- <-].
  now apply select_keeps_policy.
Qed.

Lemma provisional_all_policy struc max_index thicknesses vacuums lll cs is_sym
  w w' prov :
  provisional_all struc max_index thicknesses vacuums lll cs is_sym w
  = (w', Ok prov) ->
  Forall (fun d => passes_policy is_sym (d_slab d)) prov.
Proof.
  unfold provisional_all.
  apply for_in_invariant; [|constructor].
  intros vacuum s0 w0 w1 s1 Hs0. apply for_in_invariant; [|assumption].
  clear. intros thickness s0 w0 w1 s1 Hs0 Hrun.
  apply bind_inv in Hrun as (w2 & b & _ & Hrun).
  apply bind_inv in Hrun as (w3 & slabs & _ & Hrun).
  revert Hrun. apply for_each_invariant; [|assumption].
  clear. intros [i slab] s0 w0 w1 s1 Hs0.
  rewrite select_all_selected. unfold ret. intros [= <- <-].
  now apply select_keeps_policy.
Qed.

(** C3. In both drivers a generated slab is appended to the provisional
    list exactly when it is non-polar and, if [is_symmetric] is set, also
    inversion-symmetric; otherwise the list is left as it was. A polar
    slab is never appended, whatever [is_symmetric] is. Hence every record
    of a provisional list that either loop nest returns passes the
    policy. *)
Theorem selection_policy :
  forall (is_sym : bool) (t v : Z) (i : nat) (slab : Slab)
         (prov : list slab_dict) (w : World),
    (passes_policy is_sym slab ->
       select_one_hkl is_sym t v (i, slab) prov w
       = (w, Ok (append prov (candidate t v i slab)))
       /\ select_all is_sym t v (i, slab) prov w
          = (w, Ok (append prov (candidate t v i slab))))
    /\ (~ passes_policy is_sym slab ->
          select_one_hkl is_sym t v (i, slab) prov w = (w, Ok prov)
          /\ select_all is_sym t v (i, slab) prov w = (w, Ok prov))
    /\ (is_polar slab = true ->
          select_one_hkl is_sym t v (i, slab) prov w = (w, Ok prov)
          /\ select_all is_sym t v (i, slab) prov w = (w, Ok prov))
    /\ (forall struc hkl max_index thicknesses vacuums lll cs w' out,
          (provisional_one_hkl struc hkl thicknesses vacuums lll cs is_sym w
           = (w', Ok out)
           \/ provisional_all struc max_index thicknesses vacuums lll cs
                is_sym w = (w', Ok out)) ->
          Forall (fun d => passes_policy is_sym (d_slab d)) out).
Proof.
  intros is_sym t v i slab prov w.
  rewrite select_one_hkl_selected, select_all_selected. unfold ret.
  repeat apply conj.
  - intros Hp. apply selected_iff in Hp. now rewrite Hp.
  - intros Hp. destruct (selected is_sym slab) eqn:Hsel; [|now split].
    exfalso. apply Hp. now apply selected_iff.
  - intros Hp. unfold selected. rewrite Hp. now split.
  - intros struc hkl max_index thicknesses vacuums lll cs w' out [Hrun|Hrun].
    + eapply provisional_one_hkl_policy; eassumption.
    + eapply provisional_all_policy; eassumption.
Qed.

Lemma enumerate_from_lookup {A : Type} (xs : list A) k i x :
  In (i, x) (enumerate_from k xs) ->
  (k <= i)%nat /\ xs !! (i - k)%nat = Some x.
Proof.
  revert k. induction xs as [|y xs IH]; intros k; simpl; [tauto|].
  intros [[= <- <-]|Hin].
  - split; [lia|]. now rewrite Nat.sub_diag.
  - apply IH in Hin as [Hle Hlk]. split; [lia|].
    replace (i - k)%nat with (S (i - S k)) by lia. exact Hlk.
Qed.

Lemma batch_In is_sym t v slabs d :
  In d (batch is_sym t v slabs) ->
  d_slab_t d = t /\ d_vac_t d = v
  /\ slabs !! d_s_index d = Some (d_slab d)
  /\ d_hkl d = hkl_string (d_slab d)
  /\ selected is_sym (d_slab d) = true.
Proof.
  unfold batch. rewrite in_map_iff. intros ([i slab] & <- & Hin).
  apply filter_In in Hin as [Hin Hsel]. simpl in *.
  apply enumerate_from_lookup in Hin as [_ Hlk].
  rewrite Nat.sub_0_r in Hlk. auto.
Qed.

Lemma expected_candidates_In gen is_sym vs ts d :
  In d (expected_candidates gen is_sym vs ts) ->
  In (d_vac_t d) vs /\ In (d_slab_t d) ts
  /\ returned (gen (d_slab_t d) (d_vac_t d)) !! d_s_index d
     = Some (d_slab d)
  /\ d_hkl d = hkl_string (d_slab d)
  /\ selected is_sym (d_slab d) = true.
Proof.
  unfold expected_candidates. rewrite in_flat_map. intros (v & Hv & Hin).
  apply in_flat_map in Hin as (t & Ht & Hin).
  apply batch_In in Hin as (<- & <- & Hlk & Hhkl & Hsel). auto.
Qed.

Lemma loop_nest_expected (call : Bulk -> Z -> Z -> result (list Slab))
  (body : Z -> Z -> nat * Slab -> list slab_dict -> M (list slab_dict))
  struc b ts vs is_sym w :
  (forall t v i slab acc,
     body t v (i, slab) acc
     = ret (if selected is_sym slab then append acc (candidate t v i slab)
            else acc)) ->
  heap w !! struc = Some b ->
  (forall v t, In v vs -> In t ts -> exists slabs, call b t v = Ok slabs) ->
  for_in (Some vs)
    (fun vacuum provisional =>
       for_in (Some ts)
         (fun thickness provisional =>
            do b <- deref struc ;
            do slabs <- lift (call b thickness vacuum) ;
            for_each (enumerate slabs) (body thickness vacuum) provisional)
         provisional)
    [] w
  = (w, Ok (expected_candidates (call b) is_sym vs ts)).
Proof.
  intros Hbody Hl Hgen. simpl.
  rewrite for_each_accumulate with
    (g := fun v =>
            flat_map (fun t => batch is_sym t v (returned (call b t v))) ts);
    [reflexivity|].
  intros v acc Hv. apply for_each_accumulate.
  intros t acc' Ht. destruct (Hgen v t Hv Ht) as [slabs Hslabs].
  rewrite bind_ok with (w' := w) (a := b)
    by (unfold deref; now rewrite Hl).
  rewrite bind_ok with (w' := w) (a := slabs)
    by (unfold lift; now rewrite Hslabs).
  rewrite Hslabs. simpl. now apply for_each_batch.
Qed.

Lemma provisional_one_hkl_expected struc b hkl ts vs lll cs is_sym w :
  heap w !! struc = Some b ->
  (forall v t, In v vs -> In t ts ->
     exists slabs, SlabGenerator_get_slabs b hkl t v lll cs = Ok slabs) ->
  provisional_one_hkl struc hkl (Some ts) (Some vs) lll cs is_sym w
  = (w, Ok (expected_candidates
              (fun t v => SlabGenerator_get_slabs b hkl t v lll cs)
              is_sym vs ts)).
Proof.
  intros Hl Hgen. unfold provisional_one_hkl.
  apply (loop_nest_expected
           (fun b t v => SlabGenerator_get_slabs b hkl t v lll cs)
           (select_one_hkl is_sym)); try assumption.
  intros. apply select_one_hkl_selected.
Qed.

Lemma provisional_all_expected struc b max_index ts vs lll cs is_sym w :
  heap w !! struc = Some b ->
  (forall v t, In v vs -> In t ts ->
     exists slabs, generate_all_slabs b max_index t v lll cs = Ok slabs) ->
  provisional_all struc max_index (Some ts) (Some vs) lll cs is_sym w
  = (w, Ok (expected_candidates
              (fun t v => generate_all_slabs b max_index t v lll cs)
              is_sym vs ts)).
Proof.
  intros Hl Hgen. unfold provisional_all.
  apply (loop_nest_expected
           (fun b t v => generate_all_slabs b max_index t v lll cs)
           (select_all is_sym)); try assumption.
  intros. apply select_all_selected.
Qed.

(** C7. When the generator returns for every pair of the grid, each loop
    nest returns the batches in the order vacuums outside, thicknesses
    inside, and the [s_index] of every record is the position of its slab
    in the list the generator returned for the record's own (thickness,
    vacuum) pair, the rejected slabs of that list included. *)
Theorem enumeration_order :
  forall (struc : loc) (b : Bulk) (hkl : option (Z * Z * Z))
         (max_index : option Z) (ts vs : list Z) (lll cs is_sym : bool)
         (w : World),
    heap w !! struc = Some b ->
    let gen_one := fun t v => SlabGenerator_get_slabs b hkl t v lll cs in
    let gen_all := fun t v => generate_all_slabs b max_index t v lll cs in
    ((forall v t, In v vs -> In t ts -> exists slabs, gen_one t v = Ok slabs) ->
       provisional_one_hkl struc hkl (Some ts) (Some vs) lll cs is_sym w
       = (w, Ok (expected_candidates gen_one is_sym vs ts))
       /\ forall d, In d (expected_candidates gen_one is_sym vs ts) ->
            exists slabs, gen_one (d_slab_t d) (d_vac_t d) = Ok slabs
                          /\ slabs !! d_s_index d = Some (d_slab d))
    /\ ((forall v t, In v vs -> In t ts ->
           exists slabs, gen_all t v = Ok slabs) ->
        provisional_all struc max_index (Some ts) (Some vs) lll cs is_sym w
        = (w, Ok (expected_candidates gen_all is_sym vs ts))
        /\ forall d, In d (expected_candidates gen_all is_sym vs ts) ->
             exists slabs, gen_all (d_slab_t d) (d_vac_t d) = Ok slabs
                           /\ slabs !! d_s_index d = Some (d_slab d)).
Proof.
  intros struc b hkl max_index ts vs lll cs is_sym w Hl gen_one gen_all.
  split; intros Hgen; split.
  - now apply provisional_one_hkl_expected.
  - intros d Hd. apply expected_candidates_In in Hd as (Hv & Ht & Hlk & _).
    destruct (Hgen _ _ Hv Ht) as [slabs Hslabs]. exists slabs.
    split; [assumption|]. now rewrite Hslabs in Hlk.
  - now apply provisional_all_expected.
  - intros d Hd. apply expected_candidates_In in Hd as (Hv & Ht & Hlk & _).
    destruct (Hgen _ _ Hv Ht) as [slabs Hslabs]. exists slabs.
    split; [assumption|]. now rewrite Hslabs in Hlk.
Qed.

(** ** The uniqueness loop *)

Lemma dedup_snoc ms prov x :
  dedup ms (prov ++ [x]) = dedup_step ms x (dedup ms prov).
Proof. unfold dedup. now rewrite fold_left_app. Qed.

Lemma unique_pass_one_hkl_dedup ms prov w :
  unique_pass_one_hkl ms prov w = (w, Ok (dedup ms prov)).
Proof. unfold unique_pass_one_hkl. apply for_each_ret. Qed.

Lemma nonempty_app {A : Type} (xs ys : list A) :
  nonempty (xs ++ ys) = nonempty xs || nonempty ys.
Proof. destruct xs; reflexivity. Qed.

Lemma warned_nil w : warned w [] = w.
Proof.
  destruct w. unfold warned. simpl. now rewrite orb_false_r, app_nil_r.
Qed.

Lemma warned_warned w xs ys : warned (warned w xs) ys = warned w (xs ++ ys).
Proof.
  unfold warned. simpl.
  now rewrite nonempty_app, orb_assoc, app_assoc.
Qed.

Lemma warn_repeat_large_warned st w :
  warn_repeat_large st w = (warned w (warnings_of st), Ok tt).
Proof.
  destruct w as [h f l c fs].
  unfold warn_repeat_large, warnings_of, warned, bind, set_formatwarning,
    warn, ret, append.
  destruct (nonempty (repeats st)), (nonempty (large st)); simpl;
    rewrite ?orb_true_r, ?orb_false_r, ?app_nil_r, <- ?app_assoc;
    reflexivity.
Qed.

Lemma unique_pass_all_from ms prov st w :
  for_each prov
    (fun slab st =>
       let st' := dedup_step ms slab st in
       exec warn_repeat_large st' ; ret st')
    st w
  = (warned w (loop_warnings ms prov st),
     Ok (fold_left (fun st slab => dedup_step ms slab st) prov st)).
Proof.
  revert st w. induction prov as [|x prov IH]; intros st w; simpl.
  - now rewrite warned_nil.
  - unfold bind at 1. unfold bind at 1. rewrite warn_repeat_large_warned.
    unfold ret at 1. rewrite IH. now rewrite warned_warned.
Qed.

Lemma unique_pass_all_dedup ms prov w :
  unique_pass_all ms prov w
  = (warned w (loop_warnings ms prov dedup_init), Ok (dedup ms prov)).
Proof. apply unique_pass_all_from. Qed.

Lemma contains_false {A : Type} (eq : A -> A -> bool) x xs :
  contains eq x xs = false <-> forall e, In e xs -> eq x e = false.
Proof.
  unfold contains. induction xs as [|y xs IH]; simpl.
  - tauto.
  - rewrite orb_false_iff, IH. split.
    + intros [Hy Hxs] e [<-|He]; auto.
    + intros Hall. split; [apply Hall; now left|].
      intros e He. apply Hall. now right.
Qed.

Lemma contains_flip {A : Type} (eq : A -> A -> bool) x xs :
  (forall a b, eq a b = eq b a) ->
  contains eq x xs = existsb (fun e => eq e x) xs.
Proof.
  intros Hsym. unfold contains. induction xs as [|y xs IH]; simpl;
    [reflexivity|].
  now rewrite IH, Hsym.
Qed.

Lemma later_differs_snoc us y :
  later_differs us -> contains slab_eq y us = false ->
  later_differs (us ++ [y]).
Proof.
  intros Hus Hy i j a c Hi Hj Hij.
  apply lookup_snoc_Some in Hi as [[Hilt Hi]|[-> <-]];
    apply lookup_snoc_Some in Hj as [[Hjlt Hj]|[-> <-]]; try lia.
  - eapply Hus; eassumption.
  - apply (proj1 (contains_false slab_eq y us) Hy).
    apply list_elem_of_In. eapply list_elem_of_lookup_2. eassumption.
Qed.

Lemma later_differs_snoc_inv us y :
  later_differs (us ++ [y]) ->
  later_differs us /\ contains slab_eq y us = false.
Proof.
  intros Hall. split.
  - intros i j a c Hi Hj Hij. apply (Hall i j); [| |assumption].
    + apply lookup_snoc_Some. left. split; [|assumption].
      eapply lookup_lt_Some; eassumption.
    + apply lookup_snoc_Some. left. split; [|assumption].
      eapply lookup_lt_Some; eassumption.
  - apply contains_false. intros e He.
    apply list_elem_of_In, list_elem_of_lookup_1 in He as [i Hi].
    apply (Hall i (length us)).
    + apply lookup_snoc_Some. left. split; [|assumption].
      eapply lookup_lt_Some; eassumption.
    + apply lookup_snoc_Some. now right.
    + eapply lookup_lt_Some; eassumption.
Qed.

Lemma dedup_unique_list ms prov :
  unique_list (dedup ms prov)
  = map d_slab (unique_list_of_dicts (dedup ms prov)).
Proof.
  induction prov as [|x prov IH] using rev_ind; [reflexivity|].
  rewrite dedup_snoc. unfold dedup_step, append.
  destruct (contains slab_eq (d_slab x) (unique_list (dedup ms prov)));
    simpl; [assumption|].
  now rewrite map_app, IH.
Qed.

Lemma dedup_later_differs ms prov : later_differs (unique_list (dedup ms prov)).
Proof.
  induction prov as [|x prov IH] using rev_ind.
  - intros i j a c Hi. discriminate.
  - rewrite dedup_snoc. unfold dedup_step, append.
    destruct (contains slab_eq (d_slab x) (unique_list (dedup ms prov)))
      eqn:Hin; simpl; [assumption|].
    now apply later_differs_snoc.
Qed.

Lemma dedup_large ms prov :
  large (dedup ms prov)
  = map slab_name
      (List.filter (oversize ms) (unique_list_of_dicts (dedup ms prov))).
Proof.
  induction prov as [|x prov IH] using rev_ind; [reflexivity|].
  rewrite dedup_snoc. unfold dedup_step, append.
  destruct (contains slab_eq (d_slab x) (unique_list (dedup ms prov)));
    simpl; [assumption|].
  rewrite List.filter_app, map_app, <- IH. simpl.
  fold (oversize ms x). destruct (oversize ms x); simpl;
    [reflexivity|now rewrite app_nil_r].
Qed.

(** Running the loop on records none of which equals an earlier one keeps
    them all. *)
Lemma dedup_of_distinct ms ds :
  later_differs (map d_slab ds) ->
  dedup ms ds
  = mk_dedup_state (map d_slab ds) ds []
      (map slab_name (List.filter (oversize ms) ds)).
Proof.
  induction ds as [|x ds IH] using rev_ind; intros Hall; [reflexivity|].
  rewrite map_app in Hall. simpl in Hall.
  apply later_differs_snoc_inv in Hall as [Hds Hx].
  rewrite dedup_snoc, IH by assumption.
  unfold dedup_step, append. simpl. rewrite Hx. simpl.
  rewrite List.filter_app, !map_app. simpl.
  fold (oversize ms x). destruct (oversize ms x); simpl;
    [reflexivity|now rewrite app_nil_r].
Qed.

Lemma dedup_step_duplicate ms x st :
  contains slab_eq (d_slab x) (unique_list st) = true ->
  dedup_step ms x st
  = mk_dedup_state (unique_list st) (unique_list_of_dicts st)
      (append (repeats st) (slab_name x)) (large st).
Proof. intros Hin. unfold dedup_step. now rewrite Hin. Qed.

Lemma dedup_step_accepted ms x st :
  contains slab_eq (d_slab x) (unique_list st) = false ->
  dedup_step ms x st
  = mk_dedup_state (append (unique_list st) (d_slab x))
      (append (unique_list_of_dicts st) x) (repeats st)
      (if oversize ms x then append (large st) (slab_name x) else large st).
Proof. intros Hin. unfold dedup_step. now rewrite Hin. Qed.

(** C4. Both uniqueness loops return, with the same lists. In
    [unique_list], which holds the slabs of the retained records in order,
    an entry never compares equal to an earlier entry; so when the
    equality test is symmetric, it is false on every pair of entries at
    different positions. A candidate that compares equal to an entry
    already in [unique_list] only adds its name to the repeat list. *)
Theorem unique_list_pairwise_distinct :
  forall (ms : Z) (prov : list slab_dict) (w : World),
    exists w' st,
      unique_pass_one_hkl ms prov w = (w, Ok st)
      /\ unique_pass_all ms prov w = (w', Ok st)
      /\ unique_list st = map d_slab (unique_list_of_dicts st)
      /\ later_differs (unique_list st)
      /\ ((forall a b, slab_eq a b = slab_eq b a) ->
          forall i j x y,
            unique_list st !! i = Some x -> unique_list st !! j = Some y ->
            i <> j -> slab_eq x y = false)
      /\ (forall x st0,
            contains slab_eq (d_slab x) (unique_list st0) = true ->
            dedup_step ms x st0
            = mk_dedup_state (unique_list st0) (unique_list_of_dicts st0)
                (append (repeats st0) (slab_name x)) (large st0)).
Proof.
  intros ms prov w.
  exists (warned w (loop_warnings ms prov dedup_init)), (dedup ms prov).
  repeat apply conj.
  - apply unique_pass_one_hkl_dedup.
  - apply unique_pass_all_dedup.
  - apply dedup_unique_list.
  - apply dedup_later_differs.
  - intros Hsym i j x y Hi Hj Hij.
    destruct (Nat.lt_total i j) as [Hlt|[Heq|Hgt]]; [| contradiction |].
    + rewrite Hsym. eapply dedup_later_differs; eassumption.
    + eapply dedup_later_differs; eassumption.
  - intros x st0. apply dedup_step_duplicate.
Qed.

Lemma oversize_gt ms d :
  oversize ms d = true
  <-> Z.of_nat (length (atomic_numbers (d_slab d))) > ms.
Proof. unfold oversize. rewrite Z.gtb_gt. lia. Qed.

(** C5. After either uniqueness loop, [large] holds, in order, the names
    of exactly those retained records whose atom count is strictly greater
    than [max_size]. Step by step: an accepted candidate is appended to
    [large] if its atom count exceeds [max_size] and not otherwise, in
    particular not when the count equals [max_size]; a candidate diverted
    to the repeat list leaves [large] as it was. *)
Theorem large_is_oversize_uniques :
  forall (ms : Z) (prov : list slab_dict) (w : World),
    exists w' st,
      unique_pass_one_hkl ms prov w = (w, Ok st)
      /\ unique_pass_all ms prov w = (w', Ok st)
      /\ large st
         = map slab_name
             (List.filter (oversize ms) (unique_list_of_dicts st))
      /\ (forall d, oversize ms d = true
                    <-> Z.of_nat (length (atomic_numbers (d_slab d))) > ms)
      /\ (forall x st0,
            let atoms := Z.of_nat (length (atomic_numbers (d_slab x))) in
            (contains slab_eq (d_slab x) (unique_list st0) = false ->
               (atoms > ms ->
                  large (dedup_step ms x st0)
                  = append (large st0) (slab_name x))
               /\ (atoms <= ms -> large (dedup_step ms x st0) = large st0)
               /\ (atoms = ms -> large (dedup_step ms x st0) = large st0))
            /\ (contains slab_eq (d_slab x) (unique_list st0) = true ->
                  large (dedup_step ms x st0) = large st0)).
Proof.
  intros ms prov w.
  exists (warned w (loop_warnings ms prov dedup_init)), (dedup ms prov).
  repeat apply conj.
  - apply unique_pass_one_hkl_dedup.
  - apply unique_pass_all_dedup.
  - apply dedup_large.
  - intros d. apply oversize_gt.
  - intros x st0 atoms. split.
    + intros Hnew. rewrite dedup_step_accepted by assumption. simpl.
      assert (Hle : atoms <= ms -> oversize ms x = false).
      { intros Hle. destruct (oversize ms x) eqn:Hov; [|reflexivity].
        apply oversize_gt in Hov. subst atoms. lia. }
      repeat apply conj.
      * intros Hgt. now rewrite (proj2 (oversize_gt ms x) Hgt).
      * intros H. now rewrite Hle.
      * intros H. rewrite Hle; [reflexivity|lia].
    + intros Hdup. now rewrite dedup_step_duplicate.
Qed.

(** C9. The result of either uniqueness loop is a function of the
    candidate list alone: any two runs, from any two worlds, return the
    same lists. Running either loop again on the records it retained
    retains them all, with the same oversize names and an empty repeat
    list. *)
Theorem dedup_deterministic_idempotent :
  forall (ms : Z) (prov : list slab_dict) (w1 w2 : World),
    exists st,
      snd (unique_pass_one_hkl ms prov w1) = Ok st
      /\ snd (unique_pass_one_hkl ms prov w2) = Ok st
      /\ snd (unique_pass_all ms prov w1) = Ok st
      /\ snd (unique_pass_all ms prov w2) = Ok st
      /\ snd (unique_pass_one_hkl ms (unique_list_of_dicts st) w1)
         = Ok (mk_dedup_state (unique_list st) (unique_list_of_dicts st) []
                 (large st))
      /\ snd (unique_pass_all ms (unique_list_of_dicts st) w1)
         = Ok (mk_dedup_state (unique_list st) (unique_list_of_dicts st) []
                 (large st)).
Proof.
  intros ms prov w1 w2. exists (dedup ms prov).
  rewrite !unique_pass_one_hkl_dedup, !unique_pass_all_dedup. simpl.
  assert (Hagain :
            dedup ms (unique_list_of_dicts (dedup ms prov))
            = mk_dedup_state (unique_list (dedup ms prov))
                (unique_list_of_dicts (dedup ms prov)) []
                (large (dedup ms prov))).
  { rewrite dedup_of_distinct.
    - now rewrite <- dedup_unique_list, <- dedup_large.
    - rewrite <- dedup_unique_list. apply dedup_later_differs. }
  rewrite Hagain. repeat split; reflexivity.
Qed.

(** The warnings of [get_one_hkl_slabs]: the loop emits none, and the
    block after it emits at most one repeat warning followed by at most
    one size warning, each listing all the names collected by the whole
    loop. *)
Lemma one_hkl_warns_once ms prov w :
  (do st <- unique_pass_one_hkl ms prov ;
   exec warn_repeat_large st ; ret st) w
  = (warned w (warnings_of (dedup ms prov)), Ok (dedup ms prov))
  /\ exists dup big,
       warnings_of (dedup ms prov) = (dup ++ big)%list
       /\ (dup = [] \/ dup = [repeat_message (repeats (dedup ms prov))])
       /\ (big = [] \/ big = [large_message (large (dedup ms prov))]).
Proof.
  split.
  - erewrite bind_ok by apply unique_pass_one_hkl_dedup.
    erewrite bind_ok by apply warn_repeat_large_warned. reflexivity.
  - unfold warnings_of. eexists _, _. split; [reflexivity|].
    split.
    + destruct (nonempty (repeats (dedup ms prov))); [right|left]; reflexivity.
    + destruct (nonempty (large (dedup ms prov))); [right|left]; reflexivity.
Qed.

(** ** Running the drivers *)

Lemma logged_nil w : logged w [] = w.
Proof. destruct w. unfold logged. simpl. now rewrite app_nil_r. Qed.

Lemma logged_logged w xs ys : logged (logged w xs) ys = logged w (xs ++ ys).
Proof. unfold logged. simpl. now rewrite app_assoc. Qed.

Lemma log_fs_logged e w : log_fs e w = (logged w [e], Ok tt).
Proof. reflexivity. Qed.

Lemma to_poscar_ok slab filename w :
  slab_to_poscar slab filename = Ok tt ->
  to_poscar slab filename w = (logged w [WritePoscar filename slab], Ok tt).
Proof. intros Hok. unfold to_poscar, bind, lift. now rewrite Hok. Qed.

(** Loading and decorating the bulk structure, one call at a time. *)
Lemma load_step {A : Type} structure b (k : Bulk -> M A) w :
  Structure_from_file structure = Ok b ->
  bind (lift (Structure_from_file structure)) k w = k b w.
Proof. intros Hload. apply bind_ok. unfold lift. now rewrite Hload. Qed.

Lemma alloc_step {A : Type} b (k : loc -> M A) w :
  bind (alloc b) k w
  = k (fresh (dom (heap w))) (updated w (fresh (dom (heap w))) b).
Proof. now apply bind_ok. Qed.

Lemma deref_step {A : Type} l b (k : Bulk -> M A) w :
  heap w !! l = Some b -> bind (deref l) k w = k b w.
Proof. intros Hl. apply bind_ok. unfold deref. now rewrite Hl. Qed.

Lemma oxidation_step {A : Type} l ox b b' (k : loc -> M A) w :
  heap w !! l = Some b -> chosen_decorator ox b = Ok b' ->
  bind (oxidation_states l ox) k w = k l (updated w l b').
Proof. intros Hl Hdec. apply bind_ok. now apply oxidation_states_ok with b. Qed.

Lemma updated_twice w l b b' : updated (updated w l b) l b' = updated w l b'.
Proof. unfold updated. simpl. now rewrite insert_insert_eq. Qed.

Lemma updated_lookup w l b : heap (updated w l b) !! l = Some b.
Proof. unfold updated. simpl. now rewrite lookup_insert_eq. Qed.

Lemma loaded_lookup w b : heap (loaded w b) !! fresh (dom (heap w)) = Some b.
Proof. unfold loaded. simpl. now rewrite lookup_insert_eq. Qed.

Lemma get_one_hkl_slabs_run structure hkl ts vs o w b b' :
  any [truthy_str structure; truthy_tuple3 hkl; truthy_list (Some ts);
       truthy_list (Some vs)] = true ->
  Structure_from_file structure = Ok b ->
  chosen_decorator (ox_states o) b = Ok b' ->
  (forall v t, In v vs -> In t ts ->
     exists slabs,
       SlabGenerator_get_slabs b' hkl t v (lll_reduce o) (center_slab o)
       = Ok slabs) ->
  let prov :=
    expected_candidates
      (fun t v =>
         SlabGenerator_get_slabs b' hkl t v (lll_reduce o) (center_slab o))
      (is_symmetric o) vs ts in
  let st := dedup (max_size o) prov in
  get_one_hkl_slabs structure hkl (Some ts) (Some vs) o w
  = write_one_hkl o (remove_spaces (formula b)) (unique_list_of_dicts st)
      (warned (loaded w b') (warnings_of st)).
Proof.
  intros Hany Hload Hdec Hgen prov st.
  unfold get_one_hkl_slabs. rewrite Hany. cbn [negb].
  unfold get_one_hkl_slabs_body.
  rewrite load_step with (b := b) by assumption.
  rewrite alloc_step.
  rewrite deref_step with (b := b) by apply updated_lookup. cbv zeta.
  rewrite oxidation_step with (b := b) (b' := b')
    by (try apply updated_lookup; assumption).
  rewrite updated_twice. fold (loaded w b').
  erewrite bind_ok
    by (apply provisional_one_hkl_expected with (b := b');
        [apply loaded_lookup|assumption]).
  erewrite bind_ok by apply unique_pass_one_hkl_dedup.
  erewrite bind_ok by apply warn_repeat_large_warned.
  reflexivity.
Qed.

Lemma get_all_slabs_run structure max_index ts vs o w b b' :
  any [truthy_str structure; truthy_int max_index; truthy_list (Some ts);
       truthy_list (Some vs)] = true ->
  Structure_from_file structure = Ok b ->
  chosen_decorator (ox_states o) b = Ok b' ->
  (forall v t, In v vs -> In t ts ->
     exists slabs,
       generate_all_slabs b' max_index t v (lll_reduce o) (center_slab o)
       = Ok slabs) ->
  let prov :=
    expected_candidates
      (fun t v =>
         generate_all_slabs b' max_index t v (lll_reduce o) (center_slab o))
      (is_symmetric o) vs ts in
  get_all_slabs structure max_index (Some ts) (Some vs) o w
  = write_all o (remove_spaces (formula b))
      (unique_list_of_dicts (dedup (max_size o) prov))
      (warned (loaded w b') (loop_warnings (max_size o) prov dedup_init)).
Proof.
  intros Hany Hload Hdec Hgen prov.
  unfold get_all_slabs. rewrite Hany. cbn [negb].
  unfold get_all_slabs_body.
  rewrite load_step with (b := b) by assumption.
  rewrite alloc_step.
  rewrite deref_step with (b := b) by apply updated_lookup. cbv zeta.
  rewrite oxidation_step with (b := b) (b' := b')
    by (try apply updated_lookup; assumption).
  rewrite updated_twice. fold (loaded w b').
  erewrite bind_ok
    by (apply provisional_all_expected with (b := b');
        [apply loaded_lookup|assumption]).
  erewrite bind_ok by apply unique_pass_all_dedup.
  reflexivity.
Qed.

Lemma flat_loop bulk_name ds w :
  (forall d, In d ds ->
     slab_to_poscar (d_slab d) (flat_filename bulk_name d) = Ok tt) ->
  for_each ds
    (fun slab _ => to_poscar (d_slab slab) (flat_filename bulk_name slab))
    tt w
  = (logged w (map (flat_write bulk_name) ds), Ok tt).
Proof.
  revert w. induction ds as [|d ds IH]; intros w Hok; simpl.
  - now rewrite logged_nil.
  - erewrite bind_ok by (apply to_poscar_ok, Hok; now left).
    rewrite IH by (intros; apply Hok; now right).
    now rewrite logged_logged.
Qed.

Lemma write_one_hkl_flat o bulk_name ds w :
  make_fols o = false -> make_input_files o = false ->
  (forall d, In d ds ->
     slab_to_poscar (d_slab d) (flat_filename bulk_name d) = Ok tt) ->
  write_one_hkl o bulk_name ds w
  = (logged w (Makedirs (os_path_join (cwd w) bulk_name)
               :: map (flat_write bulk_name) ds), Ok tt).
Proof.
  intros Hf Hi Hok. unfold write_one_hkl. rewrite Hf, Hi. cbn [orb].
  rewrite bind_ok with (w' := w) (a := cwd w) by reflexivity.
  rewrite bind_ok with (w' := logged w [Makedirs (os_path_join (cwd w) bulk_name)])
    (a := tt) by reflexivity.
  rewrite flat_loop by assumption. now rewrite logged_logged.
Qed.

Lemma write_all_flat o bulk_name ds w :
  make_fols o = false -> make_input_files o = false ->
  (forall d, In d ds ->
     slab_to_poscar (d_slab d) (flat_filename bulk_name d) = Ok tt) ->
  write_all o bulk_name ds w
  = (logged w (Makedirs (os_path_join (cwd w) bulk_name)
               :: map (flat_write bulk_name) ds), Ok tt).
Proof.
  intros Hf Hi Hok. unfold write_all. rewrite Hf, Hi. cbn [orb].
  rewrite bind_ok with (w' := w) (a := cwd w) by reflexivity.
  rewrite bind_ok with (w' := logged w [Makedirs (os_path_join (cwd w) bulk_name)])
    (a := tt) by reflexivity.
  rewrite flat_loop by assumption. now rewrite logged_logged.
Qed.

(** ** No admissible termination *)

Lemma batch_nil is_sym t v slabs :
  (forall s, In s slabs -> selected is_sym s = false) ->
  batch is_sym t v slabs = [].
Proof.
  intros Hnone. unfold batch.
  replace (List.filter (fun entry => selected is_sym (snd entry))
             (enumerate slabs)) with (@nil (nat * Slab)); [reflexivity|].
  symmetry. unfold enumerate. generalize 0%nat.
  induction slabs as [|s slabs IH]; intros k; simpl; [reflexivity|].
  rewrite (Hnone s) by now left.
  apply IH. intros s' Hs'. apply Hnone. now right.
Qed.

Lemma expected_candidates_nil gen is_sym vs ts :
  (forall v t, In v vs -> In t ts ->
     forall s, In s (returned (gen t v)) -> selected is_sym s = false) ->
  expected_candidates gen is_sym vs ts = [].
Proof.
  intros Hnone. unfold expected_candidates.
  induction vs as [|v vs IHv]; simpl; [reflexivity|].
  rewrite IHv by (intros; eapply Hnone; eauto; now right).
  rewrite app_nil_r.
  assert (Hts : forall t, In t ts ->
            batch is_sym t v (returned (gen t v)) = []).
  { intros t Ht. apply batch_nil. intros s Hs.
    eapply (Hnone v t); eauto. now left. }
  clear Hnone IHv. induction ts as [|t ts IHt]; simpl; [reflexivity|].
  rewrite Hts by now left. simpl. apply IHt.
  intros t' Ht'. apply Hts. now right.
Qed.

Lemma write_one_hkl_nil o bulk_name w :
  write_one_hkl o bulk_name [] w
  = (logged w (if make_fols o || make_input_files o then []
               else [Makedirs (os_path_join (cwd w) bulk_name)]), Ok tt).
Proof.
  unfold write_one_hkl.
  destruct (make_fols o || make_input_files o); simpl.
  - now rewrite logged_nil.
  - reflexivity.
Qed.

Lemma write_all_nil o bulk_name w :
  write_all o bulk_name [] w
  = (logged w (if make_fols o || make_input_files o then []
               else [Makedirs (os_path_join (cwd w) bulk_name)]), Ok tt).
Proof.
  unfold write_all.
  destruct (make_fols o || make_input_files o); simpl.
  - now rewrite logged_nil.
  - reflexivity.
Qed.

Lemma filter_is_write_quiet (o : options) (log : list fs_event) dir :
  List.filter is_write
    (log ++ (if make_fols o || make_input_files o then []
             else [Makedirs dir]))
  = List.filter is_write log.
Proof.
  rewrite List.filter_app.
  destruct (make_fols o || make_input_files o); simpl; apply app_nil_r.
Qed.

(** C6. Let [is_symmetric] be set, the structure load and be decorated,
    and the generator return, for every pair of the grid, a list in which
    no slab is both non-polar and inversion-symmetric. Then, in either
    driver, the provisional list is empty and the call returns normally:
    no warning is emitted and no slab file or input set is written (in the
    flat layout the folder named after the bulk formula is still
    created). *)
Theorem no_admissible_termination_returns :
  forall (structure : option string) (hkl : option (Z * Z * Z))
         (max_index : option Z) (ts vs : list Z) (o : options) (w : World)
         (b b' : Bulk),
    is_symmetric o = true ->
    Structure_from_file structure = Ok b ->
    chosen_decorator (ox_states o) b = Ok b' ->
    let struc := fresh (dom (heap w)) in
    let quiet :=
      logged (loaded w b')
        (if make_fols o || make_input_files o then []
         else [Makedirs (os_path_join (cwd w) (remove_spaces (formula b)))])
    in
    warn_log quiet = warn_log w
    /\ List.filter is_write (fs_log quiet) = List.filter is_write (fs_log w)
    /\ (any [truthy_str structure; truthy_tuple3 hkl; truthy_list (Some ts);
             truthy_list (Some vs)] = true ->
        (forall v t, In v vs -> In t ts ->
           exists slabs,
             SlabGenerator_get_slabs b' hkl t v (lll_reduce o) (center_slab o)
             = Ok slabs
             /\ forall s, In s slabs ->
                  ~ (is_polar s = false /\ slab_is_symmetric s = true)) ->
        provisional_one_hkl struc hkl (Some ts) (Some vs) (lll_reduce o)
          (center_slab o) (is_symmetric o) (loaded w b')
        = (loaded w b', Ok [])
        /\ get_one_hkl_slabs structure hkl (Some ts) (Some vs) o w
           = (quiet, Ok tt))
    /\ (any [truthy_str structure; truthy_int max_index;
             truthy_list (Some ts); truthy_list (Some vs)] = true ->
        (forall v t, In v vs -> In t ts ->
           exists slabs,
             generate_all_slabs b' max_index t v (lll_reduce o)
               (center_slab o) = Ok slabs
             /\ forall s, In s slabs ->
                  ~ (is_polar s = false /\ slab_is_symmetric s = true)) ->
        provisional_all struc max_index (Some ts) (Some vs) (lll_reduce o)
          (center_slab o) (is_symmetric o) (loaded w b')
        = (loaded w b', Ok [])
        /\ get_all_slabs structure max_index (Some ts) (Some vs) o w
           = (quiet, Ok tt)).
Proof.
  intros structure hkl max_index ts vs o w b b' Hsym Hload Hdec struc quiet.
  assert (Hsel : forall s,
            ~ (is_polar s = false /\ slab_is_symmetric s = true) ->
            selected (is_symmetric o) s = false).
  { intros s Hs. destruct (selected (is_symmetric o) s) eqn:Hsel;
      [|reflexivity].
    exfalso. apply Hs. apply selected_iff in Hsel as [Hp Hi]. auto. }
  split; [reflexivity|]. split.
  { unfold quiet. simpl. apply filter_is_write_quiet. }
  split; intros Hany Hgen.
  - assert (Hret : forall v t, In v vs -> In t ts ->
              exists slabs,
                SlabGenerator_get_slabs b' hkl t v (lll_reduce o)
                  (center_slab o) = Ok slabs).
    { intros v t Hv Ht. destruct (Hgen v t Hv Ht) as (slabs & Hs & _).
      now exists slabs. }
    assert (Hnil : expected_candidates
                     (fun t v => SlabGenerator_get_slabs b' hkl t v
                                   (lll_reduce o) (center_slab o))
                     (is_symmetric o) vs ts = []).
    { apply expected_candidates_nil. intros v t Hv Ht s Hin.
      destruct (Hgen v t Hv Ht) as (slabs & Hs & Hbad).
      rewrite Hs in Hin. apply Hsel, Hbad, Hin. }
    split.
    + rewrite provisional_one_hkl_expected with (b := b')
        by (try apply loaded_lookup; assumption).
      now rewrite Hnil.
    + rewrite get_one_hkl_slabs_run with (b := b) (b' := b')
        by assumption.
      rewrite Hnil. unfold dedup. simpl. unfold warnings_of. simpl.
      rewrite warned_nil. apply write_one_hkl_nil.
  - assert (Hret : forall v t, In v vs -> In t ts ->
              exists slabs,
                generate_all_slabs b' max_index t v (lll_reduce o)
                  (center_slab o) = Ok slabs).
    { intros v t Hv Ht. destruct (Hgen v t Hv Ht) as (slabs & Hs & _).
      now exists slabs. }
    assert (Hnil : expected_candidates
                     (fun t v => generate_all_slabs b' max_index t v
                                   (lll_reduce o) (center_slab o))
                     (is_symmetric o) vs ts = []).
    { apply expected_candidates_nil. intros v t Hv Ht s Hin.
      destruct (Hgen v t Hv Ht) as (slabs & Hs & Hbad).
      rewrite Hs in Hin. apply Hsel, Hbad, Hin. }
    split.
    + rewrite provisional_all_expected with (b := b')
        by (try apply loaded_lookup; assumption).
      now rewrite Hnil.
    + rewrite get_all_slabs_run with (b := b) (b' := b')
        by assumption.
      rewrite Hnil. unfold dedup. simpl.
      rewrite warned_nil. apply write_all_nil.
Qed.

(** ** File names *)

Lemma pretty_N_char_int x : int_char (pretty_N_char x) = true.
Proof. unfold pretty_N_char. repeat case_match; reflexivity. Qed.

Lemma pretty_N_go_int x s :
  int_string s = true -> int_string (pretty_N_go x s) = true.
Proof.
  revert s. induction (N.lt_wf_0 x) as [x _ IH]; intros s Hs.
  destruct (decide (x = 0)%N) as [->|Hx].
  - now rewrite pretty_N_go_0.
  - rewrite pretty_N_go_step by lia. apply IH.
    + apply N.div_lt; lia.
    + simpl. now rewrite pretty_N_char_int.
Qed.

Lemma pretty_N_int (x : N) : int_string (pretty x) = true.
Proof.
  unfold pretty, pretty_N. case_decide; [reflexivity|].
  now apply pretty_N_go_int.
Qed.

Lemma str_nat_int n : int_string (str_nat n) = true.
Proof. apply pretty_N_int. Qed.

Lemma int_string_app s1 s2 :
  int_string (s1 ++ s2) = int_string s1 && int_string s2.
Proof.
  induction s1 as [|c s1 IH]; simpl; [reflexivity|].
  now rewrite IH, andb_assoc.
Qed.

Lemma str_int_int n : int_string (str_int n) = true.
Proof.
  unfold str_int, pretty, pretty_Z. destruct n as [|p|p].
  - reflexivity.
  - apply pretty_N_int.
  - change ("-" +:+ pretty p) with (String "-"%char (pretty (N.pos p))).
    simpl. apply pretty_N_int.
Qed.

Lemma join_empty_int xs :
  Forall (fun x => int_string x = true) xs -> int_string (join "" xs) = true.
Proof.
  induction 1 as [|x xs Hx Hxs IH]; [reflexivity|].
  destruct xs as [|y xs]; [assumption|].
  change (join "" (x :: y :: xs)) with (x ++ "" ++ join "" (y :: xs)).
  rewrite int_string_app, Hx. simpl. exact IH.
Qed.

Lemma hkl_string_int slab : int_string (hkl_string slab) = true.
Proof.
  unfold hkl_string. apply join_empty_int.
  apply List.Forall_forall. intros x Hx.
  apply in_map_iff in Hx as (n & <- & _).
  apply str_int_int.
Qed.

Lemma int_string_occurs c s :
  int_char c = false -> int_string s = true -> occurs c s = false.
Proof.
  intros Hc. induction s as [|a s IH]; simpl; [reflexivity|].
  intros [Ha Hs]%andb_true_iff. rewrite IH by assumption.
  destruct (Ascii.eqb_spec c a) as [->|]; [congruence|reflexivity].
Qed.

Lemma string_app_inv_head (s a b : string) : s ++ a = s ++ b -> a = b.
Proof. induction s as [|c s IH]; simpl; [auto|]. intros [= H]. auto. Qed.

(** Two strings that agree up to and after the first separator. *)
Lemma split_at_sep c s1 s2 r1 r2 :
  occurs c s1 = false -> occurs c s2 = false ->
  s1 ++ String c r1 = s2 ++ String c r2 -> s1 = s2 /\ r1 = r2.
Proof.
  revert s2. induction s1 as [|a s1 IH]; intros [|a2 s2]; simpl.
  - intros _ _ [= ->]. auto.
  - intros _ [Ha _]%orb_false_iff [= -> _].
    now rewrite Ascii.eqb_refl in Ha.
  - intros [Ha _]%orb_false_iff _ [= -> _].
    now rewrite Ascii.eqb_refl in Ha.
  - intros [_ H1]%orb_false_iff [_ H2]%orb_false_iff [= -> Heq].
    destruct (IH s2 H1 H2 Heq) as [-> ->]. auto.
Qed.

(** The naming tuple of a record, without the Miller index string. *)
Lemma flat_filename_inj bulk_name d1 d2 :
  int_string (d_hkl d1) = true -> int_string (d_hkl d2) = true ->
  flat_filename bulk_name d1 = flat_filename bulk_name d2 ->
  d_hkl d1 = d_hkl d2 /\ d_slab_t d1 = d_slab_t d2
  /\ d_vac_t d1 = d_vac_t d2 /\ d_s_index d1 = d_s_index d2.
Proof.
  intros H1 H2 Heq. unfold flat_filename in Heq.
  apply string_app_inv_head in Heq.
  apply (string_app_inv_head "/POSCAR_") in Heq.
  apply split_at_sep in Heq as [Hhkl Heq];
    try (apply int_string_occurs; [reflexivity|assumption]).
  apply split_at_sep in Heq as [Ht Heq];
    try (apply int_string_occurs; [reflexivity|apply str_int_int]).
  apply split_at_sep in Heq as [Hv Heq];
    try (apply int_string_occurs; [reflexivity|apply str_int_int]).
  apply (split_at_sep "."%char _ _ "vasp" "vasp") in Heq as [Hi _];
    try (apply int_string_occurs; [reflexivity|apply str_nat_int]).
  repeat split; try assumption.
  - now apply (inj pretty).
  - now apply (inj pretty).
  - now apply (inj pretty).
Qed.

(** ** Distinct records, distinct files *)

(** The generator is called with the same arguments for the same pair, so
    a record is determined by its thickness, vacuum and index. *)
Lemma expected_candidates_same_key gen is_sym vs ts d1 d2 :
  In d1 (expected_candidates gen is_sym vs ts) ->
  In d2 (expected_candidates gen is_sym vs ts) ->
  d_slab_t d1 = d_slab_t d2 -> d_vac_t d1 = d_vac_t d2 ->
  d_s_index d1 = d_s_index d2 -> d1 = d2.
Proof.
  intros H1 H2 Ht Hv Hi.
  apply expected_candidates_In in H1 as (_ & _ & Hl1 & Hh1 & _).
  apply expected_candidates_In in H2 as (_ & _ & Hl2 & Hh2 & _).
  destruct d1 as [h1 t1 v1 i1 s1], d2 as [h2 t2 v2 i2 s2]. simpl in *.
  subst t2 v2 i2. rewrite Hl1 in Hl2. injection Hl2 as ->.
  now subst h1 h2.
Qed.

Lemma uniques_subset ms prov d :
  In d (unique_list_of_dicts (dedup ms prov)) -> In d prov.
Proof.
  induction prov as [|x prov IH] using rev_ind; [auto|].
  rewrite dedup_snoc. unfold dedup_step, append.
  destruct (contains slab_eq (d_slab x) (unique_list (dedup ms prov)));
    simpl; rewrite !in_app_iff.
  - intros Hd. left. auto.
  - intros [Hd|Hd]; [left; auto|now right].
Qed.

Lemma uniques_NoDup_of_NoDup ms prov :
  List.NoDup prov -> List.NoDup (unique_list_of_dicts (dedup ms prov)).
Proof.
  induction prov as [|x prov IH] using rev_ind; [intros; constructor|].
  intros Hnd. apply List.NoDup_remove in Hnd as [Hnd Hx].
  rewrite app_nil_r in Hnd, Hx.
  rewrite dedup_snoc. unfold dedup_step, append.
  destruct (contains slab_eq (d_slab x) (unique_list (dedup ms prov)));
    simpl; [auto|].
  apply List.NoDup_app; [auto|repeat constructor; auto|].
  intros d Hd [<-|[]]. apply Hx. eapply uniques_subset; eassumption.
Qed.

Lemma later_differs_NoDup us :
  (forall s, slab_eq s s = true) -> later_differs us -> List.NoDup us.
Proof.
  intros Hrefl Hus. apply NoDup_ListNoDup, NoDup_alt. intros i j x Hi Hj.
  destruct (Nat.lt_total i j) as [Hlt|[Heq|Hgt]]; [|assumption|].
  - pose proof (Hus i j x x Hi Hj Hlt) as Hne. now rewrite Hrefl in Hne.
  - pose proof (Hus j i x x Hj Hi Hgt) as Hne. now rewrite Hrefl in Hne.
Qed.

Lemma uniques_NoDup_of_refl ms prov :
  (forall s, slab_eq s s = true) ->
  List.NoDup (unique_list_of_dicts (dedup ms prov)).
Proof.
  intros Hrefl. apply NoDup_map_inv with (f := d_slab).
  rewrite <- dedup_unique_list.
  apply later_differs_NoDup; [assumption|apply dedup_later_differs].
Qed.

Lemma NoDup_flat_map {A B : Type} (f : A -> list B) xs :
  List.NoDup xs -> (forall x, In x xs -> List.NoDup (f x)) ->
  (forall x1 x2 y, In x1 xs -> In x2 xs -> In y (f x1) -> In y (f x2) ->
                   x1 = x2) ->
  List.NoDup (flat_map f xs).
Proof.
  induction 1 as [|x xs Hx Hxs IH]; intros Hf Hdisj; simpl; [constructor|].
  apply List.NoDup_app.
  - apply Hf. now left.
  - apply IH.
    + intros x' Hx'. apply Hf. now right.
    + intros x1 x2 y H1 H2. apply Hdisj; now right.
  - intros y Hy Hin. apply in_flat_map in Hin as (x' & Hx' & Hy').
    apply Hx. rewrite (Hdisj x x' y); auto; [now left|now right].
Qed.

Lemma enumerate_from_NoDup {A : Type} (xs : list A) k :
  List.NoDup (enumerate_from k xs).
Proof.
  revert k. induction xs as [|x xs IH]; intros k; simpl; constructor.
  - intros Hin. apply enumerate_from_lookup in Hin as [Hle _]. lia.
  - apply IH.
Qed.

Lemma batch_NoDup is_sym t v slabs : List.NoDup (batch is_sym t v slabs).
Proof.
  unfold batch. apply List.NoDup_map_NoDup_ForallPairs.
  - intros [i1 s1] [i2 s2] _ _. unfold candidate. simpl.
    now intros [= _ -> ->].
  - apply List.NoDup_filter, enumerate_from_NoDup.
Qed.

Lemma expected_candidates_NoDup gen is_sym vs ts :
  List.NoDup vs -> List.NoDup ts -> List.NoDup (expected_candidates gen is_sym vs ts).
Proof.
  intros Hvs Hts. unfold expected_candidates.
  apply NoDup_flat_map; [assumption| |].
  - intros v _. apply NoDup_flat_map; [assumption| |].
    + intros t _. apply batch_NoDup.
    + intros t1 t2 d _ _ H1 H2.
      apply batch_In in H1 as (<- & _). now apply batch_In in H2 as (<- & _).
  - intros v1 v2 d _ _ H1 H2.
    apply in_flat_map in H1 as (t1 & _ & H1).
    apply in_flat_map in H2 as (t2 & _ & H2).
    apply batch_In in H1 as (_ & <- & _).
    now apply batch_In in H2 as (_ & <- & _).
Qed.

Lemma flat_filenames_NoDup gen is_sym vs ts ms bulk_name :
  (forall s, slab_eq s s = true) \/ (List.NoDup vs /\ List.NoDup ts) ->
  List.NoDup (map (flat_filename bulk_name)
           (unique_list_of_dicts
              (dedup ms (expected_candidates gen is_sym vs ts)))).
Proof.
  intros Hwhy. apply List.NoDup_map_NoDup_ForallPairs.
  - intros d1 d2 H1 H2 Heq.
    apply uniques_subset in H1, H2.
    apply flat_filename_inj in Heq as (_ & Ht & Hv & Hi).
    + eapply expected_candidates_same_key; eassumption.
    + apply expected_candidates_In in H1 as (_ & _ & _ & -> & _).
      apply hkl_string_int.
    + apply expected_candidates_In in H2 as (_ & _ & _ & -> & _).
      apply hkl_string_int.
  - destruct Hwhy as [Hrefl|[Hvs Hts]].
    + now apply uniques_NoDup_of_refl.
    + now apply uniques_NoDup_of_NoDup, expected_candidates_NoDup.
Qed.

(** C8. In the flat layout (neither [make_fols] nor [make_input_files]),
    when the structure loads and is decorated, the generator returns for
    every pair of the grid and every write goes through, each driver
    creates the folder named after the bulk formula and then writes
    exactly one file per retained record, in order, at
    [<bulk>/POSCAR_<hkl>_<slab_t>_<vac_t>_<index>.vasp]. These paths are
    pairwise different when the equality test is reflexive, and also when
    neither the thicknesses nor the vacuums repeat a value. *)
Theorem flat_mode_one_file_per_unique :
  forall (structure : option string) (hkl : option (Z * Z * Z))
         (max_index : option Z) (ts vs : list Z) (o : options) (w : World)
         (b b' : Bulk),
    make_fols o = false -> make_input_files o = false ->
    Structure_from_file structure = Ok b ->
    chosen_decorator (ox_states o) b = Ok b' ->
    (forall s filename, slab_to_poscar s filename = Ok tt) ->
    let bulk_name := remove_spaces (formula b) in
    let gen_one := fun t v =>
      SlabGenerator_get_slabs b' hkl t v (lll_reduce o) (center_slab o) in
    let gen_all := fun t v =>
      generate_all_slabs b' max_index t v (lll_reduce o) (center_slab o) in
    let uniques := fun gen =>
      unique_list_of_dicts
        (dedup (max_size o) (expected_candidates gen (is_symmetric o) vs ts))
    in
    (any [truthy_str structure; truthy_tuple3 hkl; truthy_list (Some ts);
          truthy_list (Some vs)] = true ->
     (forall v t, In v vs -> In t ts -> exists slabs, gen_one t v = Ok slabs) ->
     exists w',
       get_one_hkl_slabs structure hkl (Some ts) (Some vs) o w = (w', Ok tt)
       /\ fs_log w'
          = (fs_log w ++ Makedirs (os_path_join (cwd w) bulk_name)
               :: map (flat_write bulk_name) (uniques gen_one))%list
       /\ ((forall s, slab_eq s s = true)
           \/ (List.NoDup vs /\ List.NoDup ts) ->
           List.NoDup (map (flat_filename bulk_name) (uniques gen_one))))
    /\ (any [truthy_str structure; truthy_int max_index;
             truthy_list (Some ts); truthy_list (Some vs)] = true ->
        (forall v t, In v vs -> In t ts ->
           exists slabs, gen_all t v = Ok slabs) ->
        exists w',
          get_all_slabs structure max_index (Some ts) (Some vs) o w
          = (w', Ok tt)
          /\ fs_log w'
             = (fs_log w ++ Makedirs (os_path_join (cwd w) bulk_name)
                  :: map (flat_write bulk_name) (uniques gen_all))%list
          /\ ((forall s, slab_eq s s = true)
              \/ (List.NoDup vs /\ List.NoDup ts) ->
              List.NoDup (map (flat_filename bulk_name) (uniques gen_all)))).
Proof.
  intros structure hkl max_index ts vs o w b b' Hf Hi Hload Hdec Hwrite
    bulk_name gen_one gen_all uniques.
  split; intros Hany Hgen.
  - eexists. split; [|split].
    + rewrite get_one_hkl_slabs_run with (b := b) (b' := b') by assumption.
      apply write_one_hkl_flat; auto.
    + reflexivity.
    + apply flat_filenames_NoDup.
  - eexists. split; [|split].
    + rewrite get_all_slabs_run with (b := b) (b' := b') by assumption.
      apply write_all_flat; auto.
    + reflexivity.
    + apply flat_filenames_NoDup.
Qed.

End Properties.

(** What the run with the missing Miller index does in the toy library:
    the structure is loaded and decorated, and the error comes from the
    slab generator. *)
Example missing_hkl_reaches_generator :
  let r := @get_one_hkl_slabs toy_same (Some "bulk.cif") None (Some [10])
             (Some [15]) (@default_options toy_same tt) (@world0 toy_same) in
  snd r = Raise (LibraryError "no Miller index")
  /\ heap (fst r) !! 1%positive
     = Some (Toy.mk_toy_bulk "Fe2 O3" "by_guess").
Proof. vm_compute. split; reflexivity. Qed.

(** Witness for C10: a tuple falls through to the guess. *)
Lemma oxidation_states_branches_witness :
  @oxidation_states toy_same 1%positive (PyTuple [3; -2])
    (world1 toy_same (Toy.mk_toy_bulk "Fe2 O3" ""))
  = (@updated toy_same (world1 toy_same (Toy.mk_toy_bulk "Fe2 O3" ""))
       1%positive (Toy.mk_toy_bulk "Fe2 O3" "by_guess"), Ok 1%positive).
Proof.
  refine (proj1 (proj2 (proj2
    (@oxidation_states_branches toy_same 1%positive (PyTuple [3; -2])
       (world1 toy_same (Toy.mk_toy_bulk "Fe2 O3" ""))
       (Toy.mk_toy_bulk "Fe2 O3" "") _)) _ _) _ _).
  - reflexivity.
  - discriminate.
  - discriminate.
  - reflexivity.
Defined.

(** C2, at the failing input. Three (thickness, vacuum) pairs yield the
    same geometry, so the second and third candidates are repeats.
    [get_all_slabs] warns twice about repeats, the first time after the
    second candidate and naming only that one, before the third candidate
    has been looked at; [get_one_hkl_slabs] warns once on the same input,
    naming both. *)
Theorem get_all_slabs_warns_inside_loop :
  let all := @get_all_slabs toy_same (Some "bulk.cif") (Some 1)
               (Some [10; 12; 14]) (Some [15])
               (@default_options toy_same tt) (@world0 toy_same) in
  let one := @get_one_hkl_slabs toy_same (Some "bulk.cif") (Some (0, 0, 1))
               (Some [10; 12; 14]) (Some [15])
               (@default_options toy_same tt) (@world0 toy_same) in
  snd all = Ok tt
  /\ warn_log (fst all)
     = [repeat_message ["001_12_15_0"];
        repeat_message ["001_12_15_0"; "001_14_15_0"]]
  /\ snd one = Ok tt
  /\ warn_log (fst one) = [repeat_message ["001_12_15_0"; "001_14_15_0"]].
Proof. vm_compute. repeat split. Qed.

(** ** Concrete instances *)

Lemma toy_generators_return (gen : Z -> Z -> list Toy.toy_slab) eq b hkl
  (lll cs : bool) (vs ts : list Z) :
  forall v t, In v vs -> In t ts ->
    exists slabs,
      @SlabGenerator_get_slabs (Toy.library gen eq) b (Some hkl) t v lll cs
      = Ok slabs.
Proof. intros v t _ _. eexists. reflexivity. Defined.

Lemma selection_policy_witness :
  @select_all toy_grow true 10 15 (1%nat, Toy.good 25 10) []
    (@world0 toy_grow)
  = (@world0 toy_grow,
     Ok [@candidate toy_grow 10 15 1%nat (Toy.good 25 10)]).
Proof.
  refine (proj2 (proj1 (@selection_policy toy_grow true 10 15 1%nat
                          (Toy.good 25 10) [] (@world0 toy_grow)) _)).
  split; reflexivity.
Defined.

Lemma enumeration_order_witness :
  @provisional_one_hkl toy_grow 1%positive (Some (0, 0, 1)) (Some [10; 12])
    (Some [15; 20]) true true true (world1 toy_grow toy_bulk0)
  = (world1 toy_grow toy_bulk0,
     Ok [@candidate toy_grow 10 15 1%nat (Toy.good 25 10);
         @candidate toy_grow 12 15 1%nat (Toy.good 27 12);
         @candidate toy_grow 10 20 1%nat (Toy.good 30 10);
         @candidate toy_grow 12 20 1%nat (Toy.good 32 12)]).
Proof.
  refine (proj1 (proj1 (@enumeration_order toy_grow 1%positive toy_bulk0
                          (Some (0, 0, 1)) None [10; 12] [15; 20] true true
                          true (world1 toy_grow toy_bulk0) _) _)).
  - reflexivity.
  - apply toy_generators_return.
Defined.

Lemma same_geometry_sym a b : Toy.same_geometry a b = Toy.same_geometry b a.
Proof. apply Nat.eqb_sym. Defined.

Lemma unique_list_pairwise_distinct_witness :
  exists st,
    snd (@unique_pass_all toy_same 500
           [@candidate toy_same 10 15 0%nat (Toy.good 7 24);
            @candidate toy_same 12 15 0%nat (Toy.good 7 24)]
           (@world0 toy_same)) = Ok st
    /\ forall i j x y,
         @unique_list toy_same st !! i = Some x ->
         @unique_list toy_same st !! j = Some y ->
         i <> j -> Toy.same_geometry x y = false.
Proof.
  destruct (@unique_list_pairwise_distinct toy_same 500
              [@candidate toy_same 10 15 0%nat (Toy.good 7 24);
               @candidate toy_same 12 15 0%nat (Toy.good 7 24)]
              (@world0 toy_same))
    as (w' & st & _ & Hall & _ & _ & Hpairs & _).
  exists st. split.
  - rewrite Hall. reflexivity.
  - apply Hpairs. exact same_geometry_sym.
Defined.

Lemma large_is_oversize_uniques_witness :
  @large toy_grow
    (@dedup_step toy_grow 10 (@candidate toy_grow 10 15 1%nat (Toy.good 25 10))
       (@dedup_init toy_grow))
  = [].
Proof.
  destruct (@large_is_oversize_uniques toy_grow 10 [] (@world0 toy_grow))
    as (w' & st & _ & _ & _ & _ & Hstep).
  refine (proj2 (proj2 (proj1
    (Hstep (@candidate toy_grow 10 15 1%nat (Toy.good 25 10))
       (@dedup_init toy_grow)) _)) _); reflexivity.
Defined.

Lemma no_admissible_termination_returns_witness :
  snd (@get_one_hkl_slabs toy_bad (Some "bulk.cif") (Some (0, 0, 1))
         (Some [10; 12]) (Some [15]) (@default_options toy_bad tt)
         (@world0 toy_bad)) = Ok tt.
Proof.
  destruct (@no_admissible_termination_returns toy_bad (Some "bulk.cif")
              (Some (0, 0, 1)) None [10; 12] [15]
              (@default_options toy_bad tt) (@world0 toy_bad)
              toy_bulk0 (Toy.mk_toy_bulk "Fe2 O3" "by_guess")
              eq_refl eq_refl eq_refl)
    as (_ & _ & Hone & _).
  destruct Hone as [_ Hrun].
  - reflexivity.
  - intros v t _ _. eexists. split; [reflexivity|].
    intros s [<-|[<-|[]]]; intros [Hp Hs]; discriminate.
  - rewrite Hrun. reflexivity.
Defined.

Lemma flat_mode_one_file_per_unique_witness :
  exists w',
    @get_all_slabs toy_grow (Some "bulk.cif") (Some 1) (Some [10; 12])
      (Some [15]) (@default_options toy_grow tt) (@world0 toy_grow)
    = (w', Ok tt)
    /\ @fs_log toy_grow w'
       = [@Makedirs toy_grow "/home/user/Fe2O3";
          @WritePoscar toy_grow "Fe2O3/POSCAR_001_10_15_1.vasp"
            (Toy.good 25 10);
          @WritePoscar toy_grow "Fe2O3/POSCAR_001_12_15_1.vasp"
            (Toy.good 27 12)].
Proof.
  destruct (@flat_mode_one_file_per_unique toy_grow (Some "bulk.cif")
              (Some (0, 0, 1)) (Some 1) [10; 12] [15]
              (@default_options toy_grow tt) (@world0 toy_grow)
              toy_bulk0 (Toy.mk_toy_bulk "Fe2 O3" "by_guess")
              eq_refl eq_refl eq_refl eq_refl (fun _ _ => eq_refl))
    as [_ Hall].
  destruct Hall as (w' & Hrun & Hlog & _).
  - reflexivity.
  - intros v t _ _. eexists. reflexivity.
  - exists w'. split; [assumption|]. rewrite Hlog. reflexivity.
Defined.

(** * Further properties of the drivers *)

Section Further.

Context {Lib : Pymatgen}.

Notation "'do' x <- m ; k" := (bind m (fun x => k))
  (at level 10, x binder, m at level 100, k at level 200).
Notation "'exec' m ; k" := (bind m (fun _ => k))
  (at level 10, m at level 100, k at level 200).

(** ** The check, exactly *)

(** X1. The check of the required arguments rejects a call exactly when
    nothing usable is supplied: it raises its ValueError, leaving the
    world untouched, when the structure is None or the empty string, the
    index is None (or, for [max_index], zero) and both lists are None or
    empty; and as soon as one of the four is supplied non-empty the call
    goes on to the body, whatever the other three are. *)
Theorem check_rejects_only_when_nothing_is_supplied :
  forall (structure : option string) (hkl : option (Z * Z * Z))
         (max_index : option Z) (thicknesses vacuums : option (list Z))
         (o : options) (w : World),
    ((structure = None \/ structure = Some "") ->
     (thicknesses = None \/ thicknesses = Some []) ->
     (vacuums = None \/ vacuums = Some []) ->
     (hkl = None ->
        get_one_hkl_slabs structure hkl thicknesses vacuums o w
        = (w, Raise (ValueError missing_one_hkl)))
     /\ (max_index = None \/ max_index = Some 0 ->
         get_all_slabs structure max_index thicknesses vacuums o w
         = (w, Raise (ValueError missing_all))))
    /\ ((exists c s, structure = Some (String c s))
        \/ (exists t ts, thicknesses = Some (t :: ts))
        \/ (exists v vs, vacuums = Some (v :: vs)) ->
        get_one_hkl_slabs structure hkl thicknesses vacuums o w
        = get_one_hkl_slabs_body structure hkl thicknesses vacuums o w
        /\ get_all_slabs structure max_index thicknesses vacuums o w
           = get_all_slabs_body structure max_index thicknesses vacuums o w)
    /\ ((exists h, hkl = Some h) ->
        get_one_hkl_slabs structure hkl thicknesses vacuums o w
        = get_one_hkl_slabs_body structure hkl thicknesses vacuums o w)
    /\ ((exists n, max_index = Some n /\ n <> 0) ->
        get_all_slabs structure max_index thicknesses vacuums o w
        = get_all_slabs_body structure max_index thicknesses vacuums o w).
Proof.
  intros structure hkl max_index thicknesses vacuums o w.
  repeat apply conj.
  - intros Hs Ht Hv. split.
    + intros ->. apply get_one_hkl_slabs_all_missing;
        try reflexivity; intuition (subst; reflexivity).
    + intros Hm. apply get_all_slabs_all_missing;
        intuition (subst; reflexivity).
  - intros [(c & s & ->)|[(t & ts & ->)|(v & vs & ->)]];
      unfold get_one_hkl_slabs, get_all_slabs, any; simpl;
      rewrite ?orb_true_r; split; reflexivity.
  - intros (h & ->). unfold get_one_hkl_slabs, any. simpl.
    now rewrite ?orb_true_r.
  - intros (n & -> & Hn). unfold get_all_slabs, any. simpl.
    apply Z.eqb_neq in Hn. rewrite Hn. simpl. now rewrite ?orb_true_r.
Qed.

(** ** Exceptions raised by the library *)

Lemma bind_lift {A B : Type} (r : result A) (k : A -> M B) w :
  bind (lift r) k w
  = match r with
    | Ok a => k a w
    | Raise e => (w, Raise e)
    end.
Proof. unfold bind, lift. now destruct r. Qed.

Lemma inner_loop_outcome (call : Bulk -> Z -> Z -> result (list Slab))
  (body : Z -> Z -> nat * Slab -> list slab_dict -> M (list slab_dict))
  struc b is_sym v ts acc w :
  (forall t v i slab acc,
     body t v (i, slab) acc
     = ret (if selected is_sym slab then append acc (candidate t v i slab)
            else acc)) ->
  heap w !! struc = Some b ->
  for_each ts
    (fun thickness provisional =>
       do b <- deref struc ;
       do slabs <- lift (call b thickness v) ;
       for_each (enumerate slabs) (body thickness v) provisional)
    acc w
  = match first_raise_in (fun t => call b t v) ts with
    | Some e => (w, Raise e)
    | None =>
        (w, Ok (acc ++ flat_map
                         (fun t => batch is_sym t v (returned (call b t v)))
                         ts)%list)
    end.
Proof.
  intros Hbody Hl. revert acc. induction ts as [|t ts IH]; intros acc; simpl.
  - now rewrite app_nil_r.
  - unfold bind at 1. rewrite deref_step with (b := b) by assumption.
    rewrite bind_lift.
    destruct (call b t v) as [slabs|e] eqn:Hcall; [|reflexivity].
    rewrite (for_each_batch _ is_sym t v) by apply Hbody.
    rewrite IH. destruct (first_raise_in _ ts); [reflexivity|].
    simpl. now rewrite <- app_assoc.
Qed.

Lemma loop_nest_outcome (call : Bulk -> Z -> Z -> result (list Slab))
  (body : Z -> Z -> nat * Slab -> list slab_dict -> M (list slab_dict))
  struc b is_sym vs ts acc w :
  (forall t v i slab acc,
     body t v (i, slab) acc
     = ret (if selected is_sym slab then append acc (candidate t v i slab)
            else acc)) ->
  heap w !! struc = Some b ->
  for_each vs
    (fun vacuum provisional =>
       for_in (Some ts)
         (fun thickness provisional =>
            do b <- deref struc ;
            do slabs <- lift (call b thickness vacuum) ;
            for_each (enumerate slabs) (body thickness vacuum) provisional)
         provisional)
    acc w
  = match first_raise (call b) vs ts with
    | Some e => (w, Raise e)
    | None =>
        (w, Ok (acc ++ expected_candidates (call b) is_sym vs ts)%list)
    end.
Proof.
  intros Hbody Hl. revert acc. induction vs as [|v vs IH]; intros acc; simpl.
  - unfold expected_candidates. simpl. now rewrite app_nil_r.
  - unfold bind at 1.
    rewrite (inner_loop_outcome call body struc b is_sym v ts acc w)
      by assumption.
    destruct (first_raise_in (fun t => call b t v) ts); [reflexivity|].
    rewrite IH. destruct (first_raise (call b) vs ts); [reflexivity|].
    unfold expected_candidates. simpl. now rewrite <- app_assoc.
Qed.

Lemma provisional_one_hkl_outcome struc b hkl ts vs lll cs is_sym w :
  heap w !! struc = Some b ->
  provisional_one_hkl struc hkl (Some ts) (Some vs) lll cs is_sym w
  = match first_raise (fun t v => SlabGenerator_get_slabs b hkl t v lll cs)
            vs ts with
    | Some e => (w, Raise e)
    | None =>
        (w, Ok (expected_candidates
                  (fun t v => SlabGenerator_get_slabs b hkl t v lll cs)
                  is_sym vs ts))
    end.
Proof.
  intros Hl. unfold provisional_one_hkl, for_in at 1.
  apply (loop_nest_outcome
           (fun b t v => SlabGenerator_get_slabs b hkl t v lll cs)
           (select_one_hkl is_sym) struc b is_sym vs ts []); [|assumption].
  intros. apply select_one_hkl_selected.
Qed.

Lemma provisional_all_outcome struc b max_index ts vs lll cs is_sym w :
  heap w !! struc = Some b ->
  provisional_all struc max_index (Some ts) (Some vs) lll cs is_sym w
  = match first_raise
            (fun t v => generate_all_slabs b max_index t v lll cs) vs ts with
    | Some e => (w, Raise e)
    | None =>
        (w, Ok (expected_candidates
                  (fun t v => generate_all_slabs b max_index t v lll cs)
                  is_sym vs ts))
    end.
Proof.
  intros Hl. unfold provisional_all, for_in at 1.
  apply (loop_nest_outcome
           (fun b t v => generate_all_slabs b max_index t v lll cs)
           (select_all is_sym) struc b is_sym vs ts []); [|assumption].
  intros. apply select_all_selected.
Qed.

(** The two drivers up to the loop nest, for any lists. *)
Lemma get_one_hkl_slabs_to_loops structure hkl thicknesses vacuums o w b b' :
  any [truthy_str structure; truthy_tuple3 hkl; truthy_list thicknesses;
       truthy_list vacuums] = true ->
  Structure_from_file structure = Ok b ->
  chosen_decorator (ox_states o) b = Ok b' ->
  get_one_hkl_slabs structure hkl thicknesses vacuums o w
  = (do provisional <- provisional_one_hkl (fresh (dom (heap w))) hkl
                         thicknesses vacuums (lll_reduce o) (center_slab o)
                         (is_symmetric o) ;
     do st <- unique_pass_one_hkl (max_size o) provisional ;
     exec warn_repeat_large st ;
     write_one_hkl o (remove_spaces (formula b)) (unique_list_of_dicts st))
      (loaded w b').
Proof.
  intros Hany Hload Hdec. unfold get_one_hkl_slabs. rewrite Hany. cbn [negb].
  unfold get_one_hkl_slabs_body.
  rewrite load_step with (b := b) by assumption.
  rewrite alloc_step.
  rewrite deref_step with (b := b) by apply updated_lookup. cbv zeta.
  rewrite oxidation_step with (b := b) (b' := b')
    by (try apply updated_lookup; assumption).
  now rewrite updated_twice.
Qed.

Lemma get_all_slabs_to_loops structure max_index thicknesses vacuums o w b b' :
  any [truthy_str structure; truthy_int max_index; truthy_list thicknesses;
       truthy_list vacuums] = true ->
  Structure_from_file structure = Ok b ->
  chosen_decorator (ox_states o) b = Ok b' ->
  get_all_slabs structure max_index thicknesses vacuums o w
  = (do provisional <- provisional_all (fresh (dom (heap w))) max_index
                         thicknesses vacuums (lll_reduce o) (center_slab o)
                         (is_symmetric o) ;
     do st <- unique_pass_all (max_size o) provisional ;
     write_all o (remove_spaces (formula b)) (unique_list_of_dicts st))
      (loaded w b').
Proof.
  intros Hany Hload Hdec. unfold get_all_slabs. rewrite Hany. cbn [negb].
  unfold get_all_slabs_body.
  rewrite load_step with (b := b) by assumption.
  rewrite alloc_step.
  rewrite deref_step with (b := b) by apply updated_lookup. cbv zeta.
  rewrite oxidation_step with (b := b) (b' := b')
    by (try apply updated_lookup; assumption).
  now rewrite updated_twice.
Qed.

(** X2. An exception raised while the structure is read or decorated
    comes out of either driver unchanged. When [Structure.from_file]
    raises, the world is exactly as before the call; when the decorator
    raises, the only change is the new, undecorated structure object: no
    warning is issued and nothing is written. *)
Theorem loading_errors_propagate :
  forall (structure : option string) (hkl : option (Z * Z * Z))
         (max_index : option Z) (thicknesses vacuums : option (list Z))
         (o : options) (w : World) (e : exn),
    any [truthy_str structure; truthy_tuple3 hkl; truthy_list thicknesses;
         truthy_list vacuums] = true ->
    any [truthy_str structure; truthy_int max_index; truthy_list thicknesses;
         truthy_list vacuums] = true ->
    (Structure_from_file structure = Raise e ->
       get_one_hkl_slabs structure hkl thicknesses vacuums o w = (w, Raise e)
       /\ get_all_slabs structure max_index thicknesses vacuums o w
          = (w, Raise e))
    /\ (forall b,
          Structure_from_file structure = Ok b ->
          chosen_decorator (ox_states o) b = Raise e ->
          let w' := updated w (fresh (dom (heap w))) b in
          get_one_hkl_slabs structure hkl thicknesses vacuums o w
          = (w', Raise e)
          /\ get_all_slabs structure max_index thicknesses vacuums o w
             = (w', Raise e)
          /\ warn_log w' = warn_log w /\ fs_log w' = fs_log w).
Proof.
  intros structure hkl max_index thicknesses vacuums o w e Hone Hall.
  unfold get_one_hkl_slabs, get_all_slabs. rewrite Hone, Hall. cbn [negb].
  unfold get_one_hkl_slabs_body, get_all_slabs_body. split.
  - intros Hload.
    split; apply bind_raise; unfold lift; now rewrite Hload.
  - intros b Hload Hdec. cbv zeta.
    rewrite !load_step with (b := b) by assumption.
    rewrite !alloc_step.
    rewrite !deref_step with (b := b) by apply updated_lookup.
    repeat split; try reflexivity;
      apply bind_raise, oxidation_states_raise with (b := b);
      try apply updated_lookup; assumption.
Qed.

(** X3. When a generator call raises, either driver stops at the first
    such call in loop order (vacuums outside, thicknesses inside) and
    raises its exception. The structure has been loaded and decorated by
    then, but no warning has been issued and nothing has been written,
    however many pairs were generated before. *)
Theorem generator_error_stops_before_any_output :
  forall (structure : option string) (hkl : option (Z * Z * Z))
         (max_index : option Z) (ts vs : list Z) (o : options) (w : World)
         (b b' : Bulk) (e : exn),
    Structure_from_file structure = Ok b ->
    chosen_decorator (ox_states o) b = Ok b' ->
    warn_log (loaded w b') = warn_log w
    /\ fs_log (loaded w b') = fs_log w
    /\ (any [truthy_str structure; truthy_tuple3 hkl; truthy_list (Some ts);
             truthy_list (Some vs)] = true ->
        first_raise
          (fun t v =>
             SlabGenerator_get_slabs b' hkl t v (lll_reduce o) (center_slab o))
          vs ts = Some e ->
        get_one_hkl_slabs structure hkl (Some ts) (Some vs) o w
        = (loaded w b', Raise e))
    /\ (any [truthy_str structure; truthy_int max_index;
             truthy_list (Some ts); truthy_list (Some vs)] = true ->
        first_raise
          (fun t v =>
             generate_all_slabs b' max_index t v (lll_reduce o)
               (center_slab o))
          vs ts = Some e ->
        get_all_slabs structure max_index (Some ts) (Some vs) o w
        = (loaded w b', Raise e)).
Proof.
  intros structure hkl max_index ts vs o w b b' e Hload Hdec.
  split; [reflexivity|]. split; [reflexivity|]. split; intros Hany Hfirst.
  - rewrite get_one_hkl_slabs_to_loops with (b := b) (b' := b')
      by assumption.
    apply bind_raise.
    rewrite provisional_one_hkl_outcome with (b := b')
      by apply loaded_lookup.
    now rewrite Hfirst.
  - rewrite get_all_slabs_to_loops with (b := b) (b' := b') by assumption.
    apply bind_raise.
    rewrite provisional_all_outcome with (b := b') by apply loaded_lookup.
    now rewrite Hfirst.
Qed.

(** X4. A thickness or vacuum list left at None that slips through the
    check is only noticed by the loops, after the structure has been
    loaded and decorated: [vacuums=None] raises a TypeError; so does
    [thicknesses=None] when there is at least one vacuum. With an empty
    vacuum list [thicknesses=None] is never looked at and the call returns
    normally, having written no slab. *)
Theorem missing_list_surfaces_in_the_loops :
  forall (structure : option string) (hkl : option (Z * Z * Z))
         (max_index : option Z) (thicknesses : option (list Z))
         (v : Z) (vs : list Z) (o : options) (w : World) (b b' : Bulk),
    (exists c s, structure = Some (String c s)) ->
    Structure_from_file structure = Ok b ->
    chosen_decorator (ox_states o) b = Ok b' ->
    let quiet :=
      logged (loaded w b')
        (if make_fols o || make_input_files o then []
         else [Makedirs (os_path_join (cwd w) (remove_spaces (formula b)))])
    in
    get_one_hkl_slabs structure hkl thicknesses None o w
    = (loaded w b', Raise (TypeError not_iterable))
    /\ get_all_slabs structure max_index thicknesses None o w
       = (loaded w b', Raise (TypeError not_iterable))
    /\ get_one_hkl_slabs structure hkl None (Some (v :: vs)) o w
       = (loaded w b', Raise (TypeError not_iterable))
    /\ get_all_slabs structure max_index None (Some (v :: vs)) o w
       = (loaded w b', Raise (TypeError not_iterable))
    /\ get_one_hkl_slabs structure hkl None (Some []) o w = (quiet, Ok tt)
    /\ get_all_slabs structure max_index None (Some []) o w = (quiet, Ok tt).
Proof.
  intros structure hkl max_index thicknesses v vs o w b b'
    (c & s & ->) Hload Hdec quiet.
  assert (Hone : forall ts vs' : option (list Z),
            any [truthy_str (Some (String c s)); truthy_tuple3 hkl;
                 truthy_list ts; truthy_list vs'] = true) by reflexivity.
  assert (Hall : forall ts vs' : option (list Z),
            any [truthy_str (Some (String c s)); truthy_int max_index;
                 truthy_list ts; truthy_list vs'] = true) by reflexivity.
  repeat apply conj.
  - rewrite get_one_hkl_slabs_to_loops with (b := b) (b' := b') by auto.
    reflexivity.
  - rewrite get_all_slabs_to_loops with (b := b) (b' := b') by auto.
    reflexivity.
  - rewrite get_one_hkl_slabs_to_loops with (b := b) (b' := b') by auto.
    reflexivity.
  - rewrite get_all_slabs_to_loops with (b := b) (b' := b') by auto.
    reflexivity.
  - rewrite get_one_hkl_slabs_to_loops with (b := b) (b' := b') by auto.
    unfold provisional_one_hkl. simpl for_in.
    rewrite bind_ok with (w' := loaded w b') (a := @nil slab_dict)
      by reflexivity.
    erewrite bind_ok by apply unique_pass_one_hkl_dedup.
    erewrite bind_ok by apply warn_repeat_large_warned.
    unfold dedup. simpl. unfold warnings_of. simpl.
    rewrite warned_nil, write_one_hkl_nil. reflexivity.
  - rewrite get_all_slabs_to_loops with (b := b) (b' := b') by auto.
    unfold provisional_all. simpl for_in.
    rewrite bind_ok with (w' := loaded w b') (a := @nil slab_dict)
      by reflexivity.
    erewrite bind_ok by apply unique_pass_all_dedup.
    unfold dedup. simpl. rewrite warned_nil, write_all_nil. reflexivity.
Qed.

(** ** The output blocks *)

Lemma to_poscar_raise slab filename e w :
  slab_to_poscar slab filename = Raise e ->
  to_poscar slab filename w = (w, Raise e).
Proof. intros Hr. unfold to_poscar, bind, lift. now rewrite Hr. Qed.

Lemma write_input_ok slab cfg dir w :
  DictSet_write_input slab cfg dir = Ok tt ->
  write_input slab cfg dir w = (logged w [WriteInput dir slab cfg], Ok tt).
Proof. intros Hok. unfold write_input, bind, lift. now rewrite Hok. Qed.

Lemma flat_loop_fails bulk_name ds1 d ds2 e w :
  (forall d', In d' ds1 ->
     slab_to_poscar (d_slab d') (flat_filename bulk_name d') = Ok tt) ->
  slab_to_poscar (d_slab d) (flat_filename bulk_name d) = Raise e ->
  for_each (ds1 ++ d :: ds2)
    (fun slab _ => to_poscar (d_slab slab) (flat_filename bulk_name slab))
    tt w
  = (logged w (map (flat_write bulk_name) ds1), Raise e).
Proof.
  revert w. induction ds1 as [|d1 ds1 IH]; intros w Hok Hbad; simpl.
  - erewrite bind_raise by (apply to_poscar_raise; eassumption).
    now rewrite logged_nil.
  - erewrite bind_ok by (apply to_poscar_ok, Hok; now left).
    rewrite IH by (try assumption; intros; apply Hok; now right).
    now rewrite logged_logged.
Qed.

(** A loop over the records whose body makes the calls [events d] and
    keeps the working directory. *)
Lemma folder_loop (body : slab_dict -> unit -> M unit)
  (events : string -> slab_dict -> list fs_event) ds w :
  (forall d w, In d ds -> body d tt w = (logged w (events (cwd w) d), Ok tt)) ->
  for_each ds body tt w = (logged w (flat_map (events (cwd w)) ds), Ok tt).
Proof.
  revert w. induction ds as [|d ds IH]; intros w Hbody; simpl.
  - now rewrite logged_nil.
  - erewrite bind_ok by (apply Hbody; now left).
    rewrite IH by (intros; apply Hbody; now right).
    now rewrite logged_logged.
Qed.

(** X5. In the flat layout a write that raises stops the output block at
    once with that exception: the folder of the bulk formula and the files
    of the records before the failing one have been written and stay, and
    no later record is written. This holds for the output block of both
    drivers. *)
Theorem failed_write_keeps_earlier_files :
  forall (o : options) (bulk_name : string) (ds1 ds2 : list slab_dict)
         (d : slab_dict) (e : exn) (w : World),
    make_fols o = false -> make_input_files o = false ->
    (forall d', In d' ds1 ->
       slab_to_poscar (d_slab d') (flat_filename bulk_name d') = Ok tt) ->
    slab_to_poscar (d_slab d) (flat_filename bulk_name d) = Raise e ->
    let kept :=
      logged w (Makedirs (os_path_join (cwd w) bulk_name)
                :: map (flat_write bulk_name) ds1) in
    write_one_hkl o bulk_name (ds1 ++ d :: ds2) w = (kept, Raise e)
    /\ write_all o bulk_name (ds1 ++ d :: ds2) w = (kept, Raise e).
Proof.
  intros o bulk_name ds1 ds2 d e w Hf Hi Hok Hbad kept.
  unfold write_one_hkl, write_all. rewrite Hf, Hi. cbn [orb].
  rewrite !bind_ok with (w' := w) (a := cwd w) by reflexivity.
  rewrite !bind_ok
    with (w' := logged w [Makedirs (os_path_join (cwd w) bulk_name)])
         (a := tt) by reflexivity.
  rewrite (flat_loop_fails bulk_name ds1 d ds2 e) by assumption.
  rewrite logged_logged. split; reflexivity.
Qed.

Lemma folder_blocks_poscar o bulk_name ds w :
  make_fols o = true -> make_input_files o = false ->
  (forall d, In d ds ->
     slab_to_poscar (d_slab d) (slab_folder d ++ "/POSCAR") = Ok tt) ->
  write_one_hkl o bulk_name ds w
  = (logged w (flat_map (folder_poscar_events (cwd w)) ds), Ok tt)
  /\ write_all o bulk_name ds w
     = (logged w (flat_map (folder_poscar_events (cwd w)) ds), Ok tt).
Proof.
  intros Hf Hi Hok.
  unfold write_one_hkl, write_all. rewrite Hf, Hi. cbn [orb].
  split; apply (folder_loop _ folder_poscar_events); intros d w0 Hd;
    rewrite bind_ok with (w' := w0) (a := cwd w0) by reflexivity;
    rewrite bind_ok
      with (w' := logged w0 [Makedirs (os_path_join (cwd w0) (slab_folder d))])
           (a := tt) by reflexivity;
    rewrite to_poscar_ok by (apply Hok; assumption);
    now rewrite logged_logged.
Qed.

(** X6. With [make_fols] set and [make_input_files] not, the output block
    of either driver makes, for every record in order, the folder
    [<cwd>/<hkl>/<slab_t>_<vac_t>_<index>] and then writes
    [<hkl>/<slab_t>_<vac_t>_<index>/POSCAR]; the folder of the bulk
    formula is not created and no input set is written. *)
Theorem folders_with_poscars :
  forall (o : options) (bulk_name : string) (ds : list slab_dict)
         (w : World),
    make_fols o = true -> make_input_files o = false ->
    (forall d, In d ds ->
       slab_to_poscar (d_slab d) (slab_folder d ++ "/POSCAR") = Ok tt) ->
    write_one_hkl o bulk_name ds w
    = (logged w (flat_map (folder_poscar_events (cwd w)) ds), Ok tt)
    /\ write_all o bulk_name ds w
       = (logged w (flat_map (folder_poscar_events (cwd w)) ds), Ok tt).
Proof. intros o bulk_name ds w. apply folder_blocks_poscar. Qed.

(** X7. With [make_input_files] set the folders are made whether or not
    [make_fols] is set, and every record gets an input set instead of a
    bare POSCAR: [slab.to] is never called. [get_one_hkl_slabs] hands the
    writer the folder relative to the working directory,
    [get_all_slabs] the folder joined to the working directory. *)
Theorem input_files_imply_folders :
  forall (o : options) (bulk_name : string) (ds : list slab_dict)
         (w : World),
    make_input_files o = true ->
    ((forall d, In d ds ->
        DictSet_write_input (d_slab d) (settings o) (slab_folder d) = Ok tt) ->
     write_one_hkl o bulk_name ds w
     = (logged w (flat_map (input_events_one_hkl (cwd w) (settings o)) ds),
        Ok tt))
    /\ ((forall d, In d ds ->
           DictSet_write_input (d_slab d) (settings o)
             (os_path_join (cwd w) (slab_folder d)) = Ok tt) ->
        write_all o bulk_name ds w
        = (logged w (flat_map (input_events_all (cwd w) (settings o)) ds),
           Ok tt)).
Proof.
  intros o bulk_name ds w Hi.
  unfold write_one_hkl, write_all. rewrite Hi, orb_true_r.
  split; intros Hok.
  - apply (folder_loop _ (fun here => input_events_one_hkl here (settings o))).
    intros d w0 Hd.
    rewrite bind_ok with (w' := w0) (a := cwd w0) by reflexivity.
    rewrite bind_ok
      with (w' := logged w0 [Makedirs (os_path_join (cwd w0) (slab_folder d))])
           (a := tt) by reflexivity.
    rewrite write_input_ok by (apply Hok; assumption).
    now rewrite logged_logged.
  - assert (Hloop : forall w0, cwd w0 = cwd w ->
              for_each ds
                (fun slab _ =>
                   do here <- getcwd ;
                   exec makedirs (os_path_join here (slab_folder slab)) ;
                   do here <- getcwd ;
                   write_input (d_slab slab) (settings o)
                     (os_path_join here (slab_folder slab)))
                tt w0
              = (logged w0
                   (flat_map (input_events_all (cwd w) (settings o)) ds),
                 Ok tt)).
    { clear -Hok. induction ds as [|d ds IH]; intros w0 Hcwd; simpl.
      - now rewrite logged_nil.
      - rewrite bind_ok with
          (w' := logged w0
                   (input_events_all (cwd w) (settings o) d)) (a := tt).
        + rewrite IH by (try assumption; intros; apply Hok; now right).
          now rewrite logged_logged.
        + rewrite bind_ok with (w' := w0) (a := cwd w0) by reflexivity.
          rewrite bind_ok
            with (w' := logged w0
                          [Makedirs (os_path_join (cwd w0) (slab_folder d))])
                 (a := tt) by reflexivity.
          rewrite bind_ok
            with (w' := logged w0
                          [Makedirs (os_path_join (cwd w0) (slab_folder d))])
                 (a := cwd w0) by reflexivity.
          rewrite Hcwd.
          rewrite write_input_ok by (apply Hok; now left).
          now rewrite logged_logged. }
    now apply Hloop.
Qed.

(** ** Names *)

Lemma slab_name_inj d1 d2 :
  int_string (d_hkl d1) = true -> int_string (d_hkl d2) = true ->
  slab_name d1 = slab_name d2 ->
  d_hkl d1 = d_hkl d2 /\ d_slab_t d1 = d_slab_t d2
  /\ d_vac_t d1 = d_vac_t d2 /\ d_s_index d1 = d_s_index d2.
Proof.
  intros H1 H2 Heq. unfold slab_name in Heq.
  apply split_at_sep in Heq as [Hhkl Heq];
    try (apply int_string_occurs; [reflexivity|assumption]).
  apply split_at_sep in Heq as [Ht Heq];
    try (apply int_string_occurs; [reflexivity|apply str_int_int]).
  apply split_at_sep in Heq as [Hv Hi];
    try (apply int_string_occurs; [reflexivity|apply str_int_int]).
  repeat split; try assumption; now apply (inj pretty).
Qed.

Lemma slab_folder_inj d1 d2 :
  int_string (d_hkl d1) = true -> int_string (d_hkl d2) = true ->
  slab_folder d1 = slab_folder d2 ->
  d_hkl d1 = d_hkl d2 /\ d_slab_t d1 = d_slab_t d2
  /\ d_vac_t d1 = d_vac_t d2 /\ d_s_index d1 = d_s_index d2.
Proof.
  intros H1 H2 Heq. unfold slab_folder in Heq.
  apply split_at_sep in Heq as [Hhkl Heq];
    try (apply int_string_occurs; [reflexivity|assumption]).
  apply split_at_sep in Heq as [Ht Heq];
    try (apply int_string_occurs; [reflexivity|apply str_int_int]).
  apply split_at_sep in Heq as [Hv Hi];
    try (apply int_string_occurs; [reflexivity|apply str_int_int]).
  repeat split; try assumption; now apply (inj pretty).
Qed.

Lemma expected_candidates_hkl_int gen is_sym vs ts d :
  In d (expected_candidates gen is_sym vs ts) -> int_string (d_hkl d) = true.
Proof.
  intros Hd. apply expected_candidates_In in Hd as (_ & _ & _ & -> & _).
  apply hkl_string_int.
Qed.

(** X8. Among the candidates of one run, the name used in the warnings
    ([hkl_slab_t_vac_t_index]) and the folder ([hkl/slab_t_vac_t_index])
    each determine the record: two candidates with the same name, or with
    the same folder, are the same record (same Miller index string,
    thickness, vacuum, index and slab). *)
Theorem names_identify_candidates :
  forall (gen : Z -> Z -> result (list Slab)) (is_sym : bool)
         (vs ts : list Z) (d1 d2 : slab_dict),
    In d1 (expected_candidates gen is_sym vs ts) ->
    In d2 (expected_candidates gen is_sym vs ts) ->
    slab_name d1 = slab_name d2 \/ slab_folder d1 = slab_folder d2 ->
    d1 = d2.
Proof.
  intros gen is_sym vs ts d1 d2 H1 H2 Heq.
  pose proof (expected_candidates_hkl_int _ _ _ _ _ H1) as Hi1.
  pose proof (expected_candidates_hkl_int _ _ _ _ _ H2) as Hi2.
  assert (Hkey : d_slab_t d1 = d_slab_t d2 /\ d_vac_t d1 = d_vac_t d2
                 /\ d_s_index d1 = d_s_index d2).
  { destruct Heq as [Heq|Heq].
    - apply slab_name_inj in Heq as (_ & ? & ? & ?); auto.
    - apply slab_folder_inj in Heq as (_ & ? & ? & ?); auto. }
  destruct Hkey as (Ht & Hv & Hi).
  eapply expected_candidates_same_key; eassumption.
Qed.

(** X9. The folders of the retained records are pairwise different, under
    the conditions that make the flat file names different: a reflexive
    equality test, or thickness and vacuum lists without repeated
    values. So the folder layout never puts two retained slabs in one
    folder. *)
Theorem folders_of_uniques_differ :
  forall (gen : Z -> Z -> result (list Slab)) (is_sym : bool)
         (vs ts : list Z) (ms : Z),
    (forall s, slab_eq s s = true) \/ (List.NoDup vs /\ List.NoDup ts) ->
    List.NoDup
      (map slab_folder
         (unique_list_of_dicts
            (dedup ms (expected_candidates gen is_sym vs ts)))).
Proof.
  intros gen is_sym vs ts ms Hwhy. apply List.NoDup_map_NoDup_ForallPairs.
  - intros d1 d2 H1 H2 Heq. apply uniques_subset in H1, H2.
    apply slab_folder_inj in Heq as (_ & Ht & Hv & Hi);
      try (eapply expected_candidates_hkl_int; eassumption).
    eapply expected_candidates_same_key; eassumption.
  - destruct Hwhy as [Hrefl|[Hvs Hts]].
    + now apply uniques_NoDup_of_refl.
    + now apply uniques_NoDup_of_NoDup, expected_candidates_NoDup.
Qed.

(** ** Miller index strings *)

Lemma str_int_digit n :
  0 <= n <= 9 -> exists c, str_int n = String c "".
Proof.
  intros Hn. destruct n as [|p|p]; [eexists; reflexivity| |lia].
  do 4 (try destruct p as [p|p|]; try lia; try (eexists; reflexivity)).
Qed.

Lemma hkl_string_cons3 slab h k l :
  miller_index slab = [h; k; l] ->
  hkl_string slab = str_int h ++ str_int k ++ str_int l.
Proof. intros Hm. unfold hkl_string. rewrite Hm. reflexivity. Qed.

(** X10. For Miller indices whose three entries are single digits (0 to
    9), the string [''.join(map(str, miller_index))] determines the index:
    two such slabs with the same string have the same Miller index. *)
Theorem hkl_string_single_digits_inj :
  forall (s1 s2 : Slab) (h1 k1 l1 h2 k2 l2 : Z),
    miller_index s1 = [h1; k1; l1] -> miller_index s2 = [h2; k2; l2] ->
    0 <= h1 <= 9 -> 0 <= k1 <= 9 -> 0 <= l1 <= 9 ->
    0 <= h2 <= 9 -> 0 <= k2 <= 9 -> 0 <= l2 <= 9 ->
    hkl_string s1 = hkl_string s2 ->
    miller_index s1 = miller_index s2.
Proof.
  intros s1 s2 h1 k1 l1 h2 k2 l2 Hm1 Hm2 Hh1 Hk1 Hl1 Hh2 Hk2 Hl2 Heq.
  rewrite (hkl_string_cons3 _ _ _ _ Hm1), (hkl_string_cons3 _ _ _ _ Hm2)
    in Heq.
  destruct (str_int_digit h1 Hh1) as [a1 Ea1].
  destruct (str_int_digit k1 Hk1) as [b1 Eb1].
  destruct (str_int_digit l1 Hl1) as [c1 Ec1].
  destruct (str_int_digit h2 Hh2) as [a2 Ea2].
  destruct (str_int_digit k2 Hk2) as [b2 Eb2].
  destruct (str_int_digit l2 Hl2) as [c2 Ec2].
  rewrite Ea1, Eb1, Ec1, Ea2, Eb2, Ec2 in Heq. simpl in Heq.
  injection Heq as -> -> ->.
  rewrite <- Ea2 in Ea1. rewrite <- Eb2 in Eb1. rewrite <- Ec2 in Ec1.
  apply (inj pretty) in Ea1, Eb1, Ec1. subst. now rewrite Hm1, Hm2.
Qed.

(** ** Spaces in paths *)

Lemma remove_spaces_no_space s : occurs " "%char (remove_spaces s) = false.
Proof.
  induction s as [|c s IH]; cbn [remove_spaces]; [reflexivity|].
  destruct (Ascii.eqb c " "%char) eqn:Hc; [assumption|].
  cbn [occurs]. rewrite IH, orb_false_r, Ascii.eqb_sym. exact Hc.
Qed.

Lemma occurs_app c s1 s2 : occurs c (s1 ++ s2) = occurs c s1 || occurs c s2.
Proof.
  induction s1 as [|a s1 IH]; simpl; [reflexivity|].
  now rewrite IH, orb_assoc.
Qed.

(** X11. The bulk name [struc.formula.replace(" ", "")] contains no
    space, and so neither does the path of any file written in the flat
    layout for a record of the run. *)
Theorem flat_paths_have_no_space :
  forall (b : Bulk) (gen : Z -> Z -> result (list Slab)) (is_sym : bool)
         (vs ts : list Z) (d : slab_dict),
    occurs " "%char (remove_spaces (formula b)) = false
    /\ (In d (expected_candidates gen is_sym vs ts) ->
        occurs " "%char (flat_filename (remove_spaces (formula b)) d)
        = false).
Proof.
  intros b gen is_sym vs ts d. split; [apply remove_spaces_no_space|].
  intros Hd. apply expected_candidates_hkl_int in Hd.
  unfold flat_filename. rewrite !occurs_app.
  rewrite remove_spaces_no_space.
  rewrite (int_string_occurs " "%char (d_hkl d)) by (reflexivity || assumption).
  rewrite !(int_string_occurs " "%char (str_int _))
    by (reflexivity || apply str_int_int).
  rewrite (int_string_occurs " "%char (str_nat _))
    by (reflexivity || apply str_nat_int).
  reflexivity.
Qed.

(** ** More on the uniqueness loop *)

Lemma dedup_app ms prov more :
  dedup ms (prov ++ more)
  = fold_left (fun st slab => dedup_step ms slab st) more (dedup ms prov).
Proof. unfold dedup. apply fold_left_app. Qed.

Lemma dedup_step_extends ms x st :
  exists us ds rs ls,
    unique_list (dedup_step ms x st) = (unique_list st ++ us)%list
    /\ unique_list_of_dicts (dedup_step ms x st)
       = (unique_list_of_dicts st ++ ds)%list
    /\ repeats (dedup_step ms x st) = (repeats st ++ rs)%list
    /\ large (dedup_step ms x st) = (large st ++ ls)%list.
Proof.
  unfold dedup_step, append.
  destruct (contains slab_eq (d_slab x) (unique_list st)); simpl.
  - exists [], [], [slab_name x], []. now rewrite !app_nil_r.
  - destruct (_ >? _).
    + exists [d_slab x], [x], [], [slab_name x]. now rewrite !app_nil_r.
    + exists [d_slab x], [x], [], []. now rewrite !app_nil_r.
Qed.

Lemma fold_dedup_extends ms more st :
  let st' := fold_left (fun st slab => dedup_step ms slab st) more st in
  exists us ds rs ls,
    unique_list st' = (unique_list st ++ us)%list
    /\ unique_list_of_dicts st' = (unique_list_of_dicts st ++ ds)%list
    /\ repeats st' = (repeats st ++ rs)%list
    /\ large st' = (large st ++ ls)%list.
Proof.
  revert st. induction more as [|x more IH]; intros st; simpl.
  - exists [], [], [], []. now rewrite !app_nil_r.
  - destruct (IH (dedup_step ms x st)) as (us & ds & rs & ls & Hu & Hd & Hr & Hl).
    destruct (dedup_step_extends ms x st)
      as (us0 & ds0 & rs0 & ls0 & Hu0 & Hd0 & Hr0 & Hl0).
    exists (us0 ++ us)%list, (ds0 ++ ds)%list, (rs0 ++ rs)%list,
      (ls0 ++ ls)%list.
    rewrite Hu, Hd, Hr, Hl, Hu0, Hd0, Hr0, Hl0.
    now rewrite <- !app_assoc.
Qed.

(** X12. Every candidate ends in exactly one of the two lists: the
    retained records and the repeat names together are as many as the
    candidates. There is one slab in [unique_list] per retained record,
    and at most as many oversize names as retained records. *)
Theorem every_candidate_is_counted_once :
  forall (ms : Z) (prov : list slab_dict) (w : World),
    exists w' st,
      unique_pass_one_hkl ms prov w = (w, Ok st)
      /\ unique_pass_all ms prov w = (w', Ok st)
      /\ (length (unique_list_of_dicts st) + length (repeats st)
          = length prov)%nat
      /\ length (unique_list st) = length (unique_list_of_dicts st)
      /\ (length (large st) <= length (unique_list_of_dicts st))%nat.
Proof.
  intros ms prov w.
  exists (warned w (loop_warnings ms prov dedup_init)), (dedup ms prov).
  split; [apply unique_pass_one_hkl_dedup|].
  split; [apply unique_pass_all_dedup|].
  split; [|split].
  - induction prov as [|x prov IH] using rev_ind; [reflexivity|].
    rewrite dedup_snoc, length_app. unfold dedup_step, append.
    destruct (contains slab_eq (d_slab x) (unique_list (dedup ms prov)));
      simpl; rewrite !length_app; simpl; lia.
  - rewrite dedup_unique_list. apply length_map.
  - rewrite dedup_large, length_map. apply List.filter_length_le.
Qed.

Lemma contains_true {A : Type} (eq : A -> A -> bool) x xs :
  contains eq x xs = true <-> exists e, In e xs /\ eq x e = true.
Proof. unfold contains. apply existsb_exists. Qed.

(** X13. No candidate is lost without a representative: after either
    loop every candidate is itself a retained record, or its slab
    compares equal to a slab of [unique_list]. *)
Theorem every_candidate_is_represented :
  forall (ms : Z) (prov : list slab_dict) (w : World),
    exists w' st,
      unique_pass_one_hkl ms prov w = (w, Ok st)
      /\ unique_pass_all ms prov w = (w', Ok st)
      /\ forall d, In d prov ->
           In d (unique_list_of_dicts st)
           \/ exists u, In u (unique_list st) /\ slab_eq (d_slab d) u = true.
Proof.
  intros ms prov w.
  exists (warned w (loop_warnings ms prov dedup_init)), (dedup ms prov).
  split; [apply unique_pass_one_hkl_dedup|].
  split; [apply unique_pass_all_dedup|].
  induction prov as [|x prov IH] using rev_ind; [intros d []|].
  intros d Hd. rewrite dedup_snoc.
  destruct (dedup_step_extends ms x (dedup ms prov))
    as (us & ds & rs & ls & Hu & Hds & _ & _).
  apply in_app_iff in Hd as [Hd|[<-|[]]].
  - destruct (IH d Hd) as [Hin|(u & Hu' & Heq)].
    + left. rewrite Hds. apply in_app_iff. now left.
    + right. exists u. split; [|assumption].
      rewrite Hu. apply in_app_iff. now left.
  - destruct (contains slab_eq (d_slab x) (unique_list (dedup ms prov)))
      eqn:Hin.
    + right. apply contains_true in Hin as (u & Hu' & Heq).
      exists u. split; [|assumption].
      rewrite Hu. apply in_app_iff. now left.
    + left. rewrite dedup_step_accepted by assumption. simpl.
      unfold append. apply in_app_iff. right. now left.
Qed.

(** X14. The retained records keep the order of the candidates: they form
    a subsequence of the candidate list, and the first candidate is
    always the first retained record. *)
Theorem uniques_keep_candidate_order :
  forall (ms : Z) (prov : list slab_dict) (w : World),
    exists w' st,
      unique_pass_one_hkl ms prov w = (w, Ok st)
      /\ unique_pass_all ms prov w = (w', Ok st)
      /\ sublist (unique_list_of_dicts st) prov
      /\ forall d rest, prov = d :: rest ->
           exists tail, unique_list_of_dicts st = d :: tail.
Proof.
  intros ms prov w.
  exists (warned w (loop_warnings ms prov dedup_init)), (dedup ms prov).
  split; [apply unique_pass_one_hkl_dedup|].
  split; [apply unique_pass_all_dedup|].
  split.
  - induction prov as [|x prov IH] using rev_ind; [constructor|].
    rewrite dedup_snoc. unfold dedup_step, append.
    destruct (contains slab_eq (d_slab x) (unique_list (dedup ms prov)));
      simpl.
    + now apply sublist_inserts_r.
    + now apply sublist_app.
  - intros d rest ->.
    change (d :: rest) with ([d] ++ rest)%list. rewrite dedup_app.
    destruct (fold_dedup_extends ms rest (dedup ms [d]))
      as (us & ds & rs & ls & _ & Hds & _ & _).
    exists ds. rewrite Hds. reflexivity.
Qed.

(** X15. Candidates seen later never change what was decided before: the
    four lists after a longer candidate list extend the lists after any
    prefix of it. *)
Theorem later_candidates_only_append :
  forall (ms : Z) (prov more : list slab_dict) (w : World),
    exists w1 w2 st st',
      unique_pass_one_hkl ms prov w = (w, Ok st)
      /\ unique_pass_all ms prov w = (w1, Ok st)
      /\ unique_pass_one_hkl ms (prov ++ more) w = (w, Ok st')
      /\ unique_pass_all ms (prov ++ more) w = (w2, Ok st')
      /\ exists us ds rs ls,
           unique_list st' = (unique_list st ++ us)%list
           /\ unique_list_of_dicts st' = (unique_list_of_dicts st ++ ds)%list
           /\ repeats st' = (repeats st ++ rs)%list
           /\ large st' = (large st ++ ls)%list.
Proof.
  intros ms prov more w.
  exists (warned w (loop_warnings ms prov dedup_init)),
    (warned w (loop_warnings ms (prov ++ more) dedup_init)),
    (dedup ms prov), (dedup ms (prov ++ more)).
  split; [apply unique_pass_one_hkl_dedup|].
  split; [apply unique_pass_all_dedup|].
  split; [apply unique_pass_one_hkl_dedup|].
  split; [apply unique_pass_all_dedup|].
  rewrite dedup_app. apply fold_dedup_extends.
Qed.

(** X16. [max_size] only decides which names go to the size warning: the
    retained records, their slabs and the repeat names are the same for
    any two values of [max_size]. *)
Theorem max_size_only_affects_the_warning :
  forall (ms1 ms2 : Z) (prov : list slab_dict) (w : World),
    exists w1 w2 st1 st2,
      unique_pass_one_hkl ms1 prov w = (w, Ok st1)
      /\ unique_pass_all ms1 prov w = (w1, Ok st1)
      /\ unique_pass_one_hkl ms2 prov w = (w, Ok st2)
      /\ unique_pass_all ms2 prov w = (w2, Ok st2)
      /\ unique_list st1 = unique_list st2
      /\ unique_list_of_dicts st1 = unique_list_of_dicts st2
      /\ repeats st1 = repeats st2.
Proof.
  intros ms1 ms2 prov w.
  exists (warned w (loop_warnings ms1 prov dedup_init)),
    (warned w (loop_warnings ms2 prov dedup_init)),
    (dedup ms1 prov), (dedup ms2 prov).
  split; [apply unique_pass_one_hkl_dedup|].
  split; [apply unique_pass_all_dedup|].
  split; [apply unique_pass_one_hkl_dedup|].
  split; [apply unique_pass_all_dedup|].
  induction prov as [|x prov (Hu & Hds & Hr)] using rev_ind;
    [repeat split|].
  rewrite !dedup_snoc. unfold dedup_step. rewrite Hu, Hds, Hr.
  destruct (contains slab_eq (d_slab x) (unique_list (dedup ms2 prov)));
    simpl; repeat split.
Qed.

(** ** Warnings *)

Lemma loop_warnings_snoc ms prov x st :
  loop_warnings ms (prov ++ [x]) st
  = (loop_warnings ms prov st
     ++ warnings_of
          (fold_left (fun st slab => dedup_step ms slab st) (prov ++ [x]) st))%list.
Proof.
  revert st. induction prov as [|y prov IH]; intros st; simpl.
  - now rewrite app_nil_r.
  - rewrite IH. now rewrite app_assoc.
Qed.

Lemma nonempty_false {A : Type} (xs : list A) : nonempty xs = false <-> xs = [].
Proof. destruct xs; simpl; split; intros; congruence. Qed.

Lemma warnings_of_nil st :
  warnings_of st = [] <-> repeats st = [] /\ large st = [].
Proof.
  unfold warnings_of. rewrite <- !nonempty_false.
  destruct (nonempty (repeats st)), (nonempty (large st)); simpl;
    intuition congruence.
Qed.

Lemma warnings_of_snoc_nil ms prov x :
  warnings_of (dedup ms (prov ++ [x])) = [] -> warnings_of (dedup ms prov) = [].
Proof.
  rewrite !warnings_of_nil, dedup_snoc.
  destruct (dedup_step_extends ms x (dedup ms prov))
    as (us & ds & rs & ls & _ & _ & Hr & Hl).
  rewrite Hr, Hl. intros [H1 H2].
  apply app_eq_nil in H1 as [-> _]. apply app_eq_nil in H2 as [-> _]. auto.
Qed.

Lemma loop_warnings_nil ms prov :
  loop_warnings ms prov dedup_init = [] <-> warnings_of (dedup ms prov) = [].
Proof.
  induction prov as [|x prov IH] using rev_ind; [easy|].
  rewrite loop_warnings_snoc. fold (dedup ms (prov ++ [x])). split.
  - intros H. now apply app_eq_nil in H as [_ H].
  - intros H. rewrite H, app_nil_r. apply IH.
    now apply warnings_of_snoc_nil in H.
Qed.

Lemma loop_warnings_ends ms prov :
  exists earlier,
    loop_warnings ms prov dedup_init
    = (earlier ++ warnings_of (dedup ms prov))%list.
Proof.
  destruct prov as [|x prov _] using rev_ind.
  - exists []. reflexivity.
  - exists (loop_warnings ms prov dedup_init). apply loop_warnings_snoc.
Qed.

Lemma app_eq_self {A : Type} (xs ys : list A) :
  (xs ++ ys)%list = xs <-> ys = [].
Proof.
  split; [|intros ->; apply app_nil_r].
  intros H. apply (app_inv_head xs). now rewrite app_nil_r.
Qed.

(** X17. The two uniqueness passes differ only in how often they warn.
    On the same candidates, the pass of [get_all_slabs] and the pass of
    [get_one_hkl_slabs] followed by its warning block return the same
    lists; one of them warns exactly when the other does; and the
    warnings [get_one_hkl_slabs] issues are the last ones
    [get_all_slabs] issues, after the ones it issued on the way. *)
Theorem both_passes_warn_alike :
  forall (ms : Z) (prov : list slab_dict) (w : World),
    let one :=
      (do st <- unique_pass_one_hkl ms prov ;
       exec warn_repeat_large st ; ret st) w in
    let all := unique_pass_all ms prov w in
    snd one = snd all
    /\ (warn_log (fst all) = warn_log w <-> warn_log (fst one) = warn_log w)
    /\ exists earlier final,
         warn_log (fst one) = (warn_log w ++ final)%list
         /\ warn_log (fst all) = (warn_log w ++ earlier ++ final)%list.
Proof.
  intros ms prov w one all.
  assert (Hone : one = (warned w (warnings_of (dedup ms prov)),
                        Ok (dedup ms prov))).
  { unfold one. erewrite bind_ok by apply unique_pass_one_hkl_dedup.
    erewrite bind_ok by apply warn_repeat_large_warned. reflexivity. }
  assert (Hall : all = (warned w (loop_warnings ms prov dedup_init),
                        Ok (dedup ms prov)))
    by apply unique_pass_all_dedup.
  rewrite Hone, Hall. simpl. split; [reflexivity|]. split.
  - rewrite !app_eq_self. apply loop_warnings_nil.
  - destruct (loop_warnings_ends ms prov) as [earlier Hends].
    exists earlier, (warnings_of (dedup ms prov)).
    split; [reflexivity|]. now rewrite Hends.
Qed.

(** ** What the output blocks leave alone *)

Lemma same_but_files_refl w : same_but_files w w.
Proof. repeat split. Qed.

Lemma same_but_files_trans w1 w2 w3 :
  same_but_files w1 w2 -> same_but_files w2 w3 -> same_but_files w1 w3.
Proof.
  unfold same_but_files. intros (? & ? & ? & ?) (? & ? & ? & ?).
  repeat split; congruence.
Qed.

Lemma bind_same {A B : Type} (m : M A) (k : A -> M B) w :
  same_but_files w (fst (m w)) ->
  (forall a w1, same_but_files w1 (fst (k a w1))) ->
  same_but_files w (fst (bind m k w)).
Proof.
  intros Hm Hk. unfold bind. destruct (m w) as [w1 [a|e]]; simpl in *.
  - eapply same_but_files_trans; [eassumption|apply Hk].
  - assumption.
Qed.

Lemma for_each_same {A S : Type} (body : A -> S -> M S) xs s w :
  (forall x s w, same_but_files w (fst (body x s w))) ->
  same_but_files w (fst (for_each xs body s w)).
Proof.
  intros Hbody. revert s w. induction xs as [|x xs IH]; intros s w; simpl.
  - apply same_but_files_refl.
  - apply bind_same; [apply Hbody|]. intros a w1. apply IH.
Qed.

Lemma log_fs_same e w : same_but_files w (fst (log_fs e w)).
Proof. repeat split. Qed.

Lemma to_poscar_same slab filename w :
  same_but_files w (fst (to_poscar slab filename w)).
Proof.
  unfold to_poscar. apply bind_same.
  - unfold lift. apply same_but_files_refl.
  - intros _ w1. apply log_fs_same.
Qed.

Lemma write_input_same slab cfg dir w :
  same_but_files w (fst (write_input slab cfg dir w)).
Proof.
  unfold write_input. apply bind_same.
  - unfold lift. apply same_but_files_refl.
  - intros _ w1. apply log_fs_same.
Qed.

Lemma write_one_hkl_same o bulk_name ds w :
  same_but_files w (fst (write_one_hkl o bulk_name ds w)).
Proof.
  unfold write_one_hkl. destruct (make_fols o || make_input_files o).
  - apply for_each_same. intros d _ w0.
    apply bind_same; [apply same_but_files_refl|]. intros here w1.
    apply bind_same; [apply log_fs_same|]. intros _ w2.
    destruct (make_input_files o);
      [apply write_input_same|apply to_poscar_same].
  - apply bind_same; [apply same_but_files_refl|]. intros here w1.
    apply bind_same; [apply log_fs_same|]. intros _ w2.
    apply for_each_same. intros d _ w0. apply to_poscar_same.
Qed.

Lemma write_all_same o bulk_name ds w :
  same_but_files w (fst (write_all o bulk_name ds w)).
Proof.
  unfold write_all. destruct (make_fols o || make_input_files o).
  - apply for_each_same. intros d _ w0.
    apply bind_same; [apply same_but_files_refl|]. intros here w1.
    apply bind_same; [apply log_fs_same|]. intros _ w2.
    destruct (make_input_files o); [|apply to_poscar_same].
    apply bind_same; [apply same_but_files_refl|]. intros here' w3.
    apply write_input_same.
  - apply bind_same; [apply same_but_files_refl|]. intros here w1.
    apply bind_same; [apply log_fs_same|]. intros _ w2.
    apply for_each_same. intros d _ w0. apply to_poscar_same.
Qed.

(** X18. The warnings are issued before anything is written. When the
    structure loads and the generator returns for every pair, the
    warnings a driver leaves in the log, and whether it has replaced the
    warning formatter, do not depend on the output layout or on whether
    the writes succeed: [get_one_hkl_slabs] adds the aggregated warnings
    of its pass, [get_all_slabs] those of every step of its pass, and the
    formatter is replaced exactly when a warning is issued. *)
Theorem warnings_do_not_depend_on_output :
  forall (structure : option string) (hkl : option (Z * Z * Z))
         (max_index : option Z) (ts vs : list Z) (o : options) (w : World)
         (b b' : Bulk),
    Structure_from_file structure = Ok b ->
    chosen_decorator (ox_states o) b = Ok b' ->
    let gen_one := fun t v =>
      SlabGenerator_get_slabs b' hkl t v (lll_reduce o) (center_slab o) in
    let gen_all := fun t v =>
      generate_all_slabs b' max_index t v (lll_reduce o) (center_slab o) in
    (any [truthy_str structure; truthy_tuple3 hkl; truthy_list (Some ts);
          truthy_list (Some vs)] = true ->
     (forall v t, In v vs -> In t ts -> exists slabs, gen_one t v = Ok slabs) ->
     let w' := fst (get_one_hkl_slabs structure hkl (Some ts) (Some vs) o w) in
     let msgs :=
       warnings_of
         (dedup (max_size o)
            (expected_candidates gen_one (is_symmetric o) vs ts)) in
     warn_log w' = (warn_log w ++ msgs)%list
     /\ formatwarning_custom w' = formatwarning_custom w || nonempty msgs)
    /\ (any [truthy_str structure; truthy_int max_index;
             truthy_list (Some ts); truthy_list (Some vs)] = true ->
        (forall v t, In v vs -> In t ts ->
           exists slabs, gen_all t v = Ok slabs) ->
        let w' :=
          fst (get_all_slabs structure max_index (Some ts) (Some vs) o w) in
        let msgs :=
          loop_warnings (max_size o)
            (expected_candidates gen_all (is_symmetric o) vs ts) dedup_init in
        warn_log w' = (warn_log w ++ msgs)%list
        /\ formatwarning_custom w' = formatwarning_custom w || nonempty msgs).
Proof.
  intros structure hkl max_index ts vs o w b b' Hload Hdec gen_one gen_all.
  split; intros Hany Hgen w' msgs.
  - unfold w'.
    rewrite get_one_hkl_slabs_run with (b := b) (b' := b') by assumption.
    destruct (write_one_hkl_same o (remove_spaces (formula b))
                (unique_list_of_dicts
                   (dedup (max_size o)
                      (expected_candidates gen_one (is_symmetric o) vs ts)))
                (warned (loaded w b') msgs)) as (_ & Hf & Hw & _).
    fold gen_one. fold msgs. rewrite Hf, Hw. split; reflexivity.
  - unfold w'.
    rewrite get_all_slabs_run with (b := b) (b' := b') by assumption.
    destruct (write_all_same o (remove_spaces (formula b))
                (unique_list_of_dicts
                   (dedup (max_size o)
                      (expected_candidates gen_all (is_symmetric o) vs ts)))
                (warned (loaded w b') msgs)) as (_ & Hf & Hw & _).
    fold gen_all. fold msgs. rewrite Hf, Hw. split; reflexivity.
Qed.

(** ** What [oxidation_states] leaves alone *)

(** X19. Whatever [ox_states] is and whether or not the decorator raises,
    [oxidation_states] creates no object, changes no object other than the
    structure it was given, issues no warning and touches no file. *)
Theorem oxidation_states_touches_one_object :
  forall (structure : loc) (ox : pyobj) (w : World),
    let w' := fst (oxidation_states structure ox w) in
    dom (heap w') = dom (heap w)
    /\ (forall l, l <> structure -> heap w' !! l = heap w !! l)
    /\ warn_log w' = warn_log w
    /\ fs_log w' = fs_log w
    /\ formatwarning_custom w' = formatwarning_custom w.
Proof.
  intros structure ox w.
  destruct (heap w !! structure) as [b|] eqn:Hl.
  - destruct (chosen_decorator ox b) as [b'|e] eqn:Hdec.
    + rewrite oxidation_states_ok with (b := b) (b' := b') by assumption.
      simpl. repeat split.
      * apply dom_insert_lookup_L. now rewrite Hl.
      * intros l Hne. now rewrite lookup_insert_ne.
    + rewrite oxidation_states_raise with (b := b) (e := e) by assumption.
      simpl. repeat split.
  - rewrite oxidation_states_chosen.
    erewrite bind_raise
      by (unfold mutate; apply bind_raise; unfold deref; now rewrite Hl).
    simpl. repeat split.
Qed.

(** ** The two drivers side by side *)

Lemma expected_candidates_ext gen1 gen2 is_sym vs ts :
  (forall v t, In v vs -> In t ts -> gen1 t v = gen2 t v) ->
  expected_candidates gen1 is_sym vs ts
  = expected_candidates gen2 is_sym vs ts.
Proof.
  intros Hext. unfold expected_candidates.
  induction vs as [|v vs IHv]; simpl; [reflexivity|].
  rewrite IHv by (intros; apply Hext; auto; now right). f_equal.
  assert (Hv : forall t, In t ts -> gen1 t v = gen2 t v)
    by (intros; apply Hext; auto; now left).
  clear -Hv. induction ts as [|t ts IHt]; simpl; [reflexivity|].
  rewrite Hv by now left. rewrite IHt by (intros; apply Hv; now right).
  reflexivity.
Qed.

(** X23. When the single-index generator and the all-indices generator
    return the same slabs for every pair of the grid, and no input files
    are asked for, the two drivers make the same file-system calls in the
    same order, in the flat layout as in the folder layout: they retain
    the same records and differ only in their warnings. *)
Theorem drivers_write_the_same_files :
  forall (structure : option string) (hkl : option (Z * Z * Z))
         (max_index : option Z) (ts vs : list Z) (o : options) (w : World)
         (b b' : Bulk),
    make_input_files o = false ->
    Structure_from_file structure = Ok b ->
    chosen_decorator (ox_states o) b = Ok b' ->
    any [truthy_str structure; truthy_tuple3 hkl; truthy_list (Some ts);
         truthy_list (Some vs)] = true ->
    any [truthy_str structure; truthy_int max_index; truthy_list (Some ts);
         truthy_list (Some vs)] = true ->
    (forall v t, In v vs -> In t ts ->
       exists slabs,
         SlabGenerator_get_slabs b' hkl t v (lll_reduce o) (center_slab o)
         = Ok slabs
         /\ generate_all_slabs b' max_index t v (lll_reduce o) (center_slab o)
            = Ok slabs) ->
    (forall s filename, slab_to_poscar s filename = Ok tt) ->
    let one := get_one_hkl_slabs structure hkl (Some ts) (Some vs) o w in
    let all := get_all_slabs structure max_index (Some ts) (Some vs) o w in
    snd one = Ok tt /\ snd all = Ok tt
    /\ fs_log (fst one) = fs_log (fst all).
Proof.
  intros structure hkl max_index ts vs o w b b' Hi Hload Hdec Hone Hall Hgen
    Hwrite one all.
  unfold one, all.
  rewrite get_one_hkl_slabs_run with (b := b) (b' := b'); try assumption.
  2:{ intros v t Hv Ht. destruct (Hgen v t Hv Ht) as (slabs & H1 & _).
      now exists slabs. }
  rewrite get_all_slabs_run with (b := b) (b' := b'); try assumption.
  2:{ intros v t Hv Ht. destruct (Hgen v t Hv Ht) as (slabs & _ & H2).
      now exists slabs. }
  rewrite (expected_candidates_ext
             (fun t v => SlabGenerator_get_slabs b' hkl t v (lll_reduce o)
                           (center_slab o))
             (fun t v => generate_all_slabs b' max_index t v (lll_reduce o)
                           (center_slab o))).
  2:{ intros v t Hv Ht. destruct (Hgen v t Hv Ht) as (slabs & H1 & H2).
      now rewrite H1, H2. }
  destruct (make_fols o) eqn:Hf.
  - rewrite (proj1 (folder_blocks_poscar o _ _ _ Hf Hi (fun d _ => Hwrite _ _))).
    rewrite (proj2 (folder_blocks_poscar o _ _ _ Hf Hi (fun d _ => Hwrite _ _))).
    repeat split.
  - rewrite write_one_hkl_flat by auto.
    rewrite write_all_flat by auto.
    repeat split.
Qed.

End Further.

(** * Properties of [convergence.py] *)

Section ConvergenceProperties.

Context {Lib : Pymatgen} {V : Convergence.Vasp}.

Import Convergence.




Lemma obind_done {A B : Type} (m : outcome A) (k : A -> outcome B) b :
  obind m k = Done b -> exists a, m = Done a /\ k a = Done b.
Proof. destruct m as [a|e]; simpl; [eauto|discriminate]. Qed.

(** X20. [parse_fols] cannot collect a row. [os.walk] yields 3-tuples
    and the loop unpacks each into two names, so as soon as the walk
    yields one tuple a call that got past the check and has a Miller
    index raises the ValueError of the unpacking; a call with
    [hkl=None] that got past the check raises a TypeError before the
    walk; and the only calls that write a CSV file are those for which
    the walk yields nothing, and the file then has no rows. *)
Theorem parse_fols_collects_nothing :
  forall (hkl : option (list Z)) (bulk_per_atom : option Float),
    (forall entry, In entry os_walk -> length entry = 3%nat) ->
    (any [truthy_list hkl; truthy_float bulk_per_atom] = false ->
       parse_fols hkl bulk_per_atom = Fail (ValueError missing_parse_fols))
    /\ (any [truthy_list hkl; truthy_float bulk_per_atom] = true ->
        (hkl = None ->
           parse_fols hkl bulk_per_atom
           = Fail (TypeError "'NoneType' object is not iterable"))
        /\ (forall h, hkl = Some h -> os_walk <> [] ->
              parse_fols hkl bulk_per_atom
              = Fail (ValueError "too many values to unpack (expected 2)"))
        /\ (forall h, hkl = Some h -> os_walk = [] ->
              parse_fols hkl bulk_per_atom
              = Done (join "" (map str_int h) ++ "_data.csv", [])))
    /\ (forall name rows,
          parse_fols hkl bulk_per_atom = Done (name, rows) ->
          rows = [] /\ os_walk = []).
Proof.
  intros hkl bulk_per_atom Hwalk.
  assert (Hloop : os_walk <> [] ->
            ofor os_walk (walk_step hkl bulk_per_atom) []
            = Fail (ValueError "too many values to unpack (expected 2)")).
  { destruct os_walk as [|entry rest]; [congruence|]. intros _.
    pose proof (Hwalk entry (or_introl eq_refl)) as Hlen.
    destruct entry as [|a [|b [|c [|d entry]]]]; try discriminate.
    reflexivity. }
  repeat apply conj.
  - intros Hany. unfold parse_fols. now rewrite Hany.
  - intros Hany. unfold parse_fols. rewrite Hany. repeat apply conj.
    + now intros ->.
    + intros h -> Hne. simpl. now rewrite Hloop.
    + intros h -> Hnil. rewrite Hnil. reflexivity.
  - intros name rows. unfold parse_fols.
    destruct (any _); simpl; [|discriminate].
    intros (n & _ & Hrun)%obind_done.
    apply obind_done in Hrun as (df_list & Hfor & [= _ <-]).
    destruct os_walk as [|entry rest] eqn:Hw.
    + simpl in Hfor. injection Hfor as <-. now split.
    + rewrite Hloop in Hfor by discriminate. discriminate.
Qed.



End ConvergenceProperties.

(** * Concrete instances of the further properties *)

Lemma check_rejects_only_when_nothing_is_supplied_witness :
  @get_all_slabs toy_same (Some "") (Some 0) (Some []) None
    (@default_options toy_same tt) (@world0 toy_same)
  = (@world0 toy_same, Raise (ValueError missing_all)).
Proof.
  refine (proj2 (proj1 (@check_rejects_only_when_nothing_is_supplied toy_same
                          (Some "") None (Some 0) (Some []) None
                          (@default_options toy_same tt) (@world0 toy_same))
                   _ _ _) _); auto.
Defined.

Lemma loading_errors_propagate_witness :
  @get_one_hkl_slabs toy_same None (Some (0, 0, 1)) (Some [10]) (Some [15])
    (@default_options toy_same tt) (@world0 toy_same)
  = (@world0 toy_same, Raise (LibraryError "cannot read None")).
Proof.
  refine (proj1 (proj1 (@loading_errors_propagate toy_same None
                          (Some (0, 0, 1)) (Some 1) (Some [10]) (Some [15])
                          (@default_options toy_same tt) (@world0 toy_same)
                          (LibraryError "cannot read None") _ _) _));
    reflexivity.
Defined.

Lemma generator_error_stops_before_any_output_witness :
  @get_one_hkl_slabs toy_same (Some "bulk.cif") None (Some [10]) (Some [15])
    (@default_options toy_same tt) (@world0 toy_same)
  = (@loaded toy_same (@world0 toy_same)
       (Toy.mk_toy_bulk "Fe2 O3" "by_guess"),
     Raise (LibraryError "no Miller index")).
Proof.
  refine (proj1 (proj2 (proj2
    (@generator_error_stops_before_any_output toy_same (Some "bulk.cif")
       None None [10] [15] (@default_options toy_same tt) (@world0 toy_same)
       toy_bulk0 (Toy.mk_toy_bulk "Fe2 O3" "by_guess")
       (LibraryError "no Miller index") _ _))) _ _); reflexivity.
Defined.

Lemma missing_list_surfaces_in_the_loops_witness :
  @get_one_hkl_slabs toy_same (Some "bulk.cif") (Some (0, 0, 1)) (Some [10])
    None (@default_options toy_same tt) (@world0 toy_same)
  = (@loaded toy_same (@world0 toy_same)
       (Toy.mk_toy_bulk "Fe2 O3" "by_guess"),
     Raise (TypeError not_iterable)).
Proof.
  refine (proj1
    (@missing_list_surfaces_in_the_loops toy_same (Some "bulk.cif")
       (Some (0, 0, 1)) (Some 1) (Some [10]) 15 []
       (@default_options toy_same tt) (@world0 toy_same)
       toy_bulk0 (Toy.mk_toy_bulk "Fe2 O3" "by_guess") _ _ _)).
  - exists "b"%char, "ulk.cif". reflexivity.
  - reflexivity.
  - reflexivity.
Defined.

Lemma failed_write_keeps_earlier_files_witness :
  @write_one_hkl toy_refusing_second (@default_options toy_refusing_second tt)
    "Fe2O3"
    [cand10 toy_refusing_second (Toy.good 25 10);
     cand12 toy_refusing_second (Toy.good 27 12)]
    (@world0 toy_refusing_second)
  = (@logged toy_refusing_second (@world0 toy_refusing_second)
       [@Makedirs toy_refusing_second "/home/user/Fe2O3";
        @WritePoscar toy_refusing_second "Fe2O3/POSCAR_001_10_15_1.vasp"
          (Toy.good 25 10)],
     Raise (LibraryError "Permission denied")).
Proof.
  refine (proj1
    (@failed_write_keeps_earlier_files toy_refusing_second
       (@default_options toy_refusing_second tt) "Fe2O3"
       [cand10 toy_refusing_second (Toy.good 25 10)] []
       (cand12 toy_refusing_second (Toy.good 27 12))
       (LibraryError "Permission denied") (@world0 toy_refusing_second)
       _ _ _ _)).
  - reflexivity.
  - reflexivity.
  - intros d' [<-|[]]. reflexivity.
  - reflexivity.
Defined.

Lemma folders_with_poscars_witness :
  @write_all toy_grow folder_options "Fe2O3"
    [cand10 toy_grow (Toy.good 25 10)] (@world0 toy_grow)
  = (@logged toy_grow (@world0 toy_grow)
       [@Makedirs toy_grow "/home/user/001/10_15_1";
        @WritePoscar toy_grow "001/10_15_1/POSCAR" (Toy.good 25 10)],
     Ok tt).
Proof.
  refine (proj2
    (@folders_with_poscars toy_grow folder_options "Fe2O3"
       [cand10 toy_grow (Toy.good 25 10)] (@world0 toy_grow) _ _ _)).
  - reflexivity.
  - reflexivity.
  - intros d _. reflexivity.
Defined.

Lemma input_files_imply_folders_witness :
  @write_all toy_grow input_options "Fe2O3"
    [cand10 toy_grow (Toy.good 25 10)] (@world0 toy_grow)
  = (@logged toy_grow (@world0 toy_grow)
       [@Makedirs toy_grow "/home/user/001/10_15_1";
        @WriteInput toy_grow "/home/user/001/10_15_1" (Toy.good 25 10) tt],
     Ok tt).
Proof.
  refine (proj2
    (@input_files_imply_folders toy_grow input_options "Fe2O3"
       [cand10 toy_grow (Toy.good 25 10)] (@world0 toy_grow) _) _).
  - reflexivity.
  - intros d _. reflexivity.
Defined.

Lemma names_identify_candidates_witness :
  cand10 toy_grow (Toy.good 25 10) = cand10 toy_grow (Toy.good 25 10).
Proof.
  refine (@names_identify_candidates toy_grow
            (fun t v => Ok (Toy.gen_grow t v)) true [15] [10; 12]
            (cand10 toy_grow (Toy.good 25 10))
            (cand10 toy_grow (Toy.good 25 10)) _ _ _).
  - left. reflexivity.
  - left. reflexivity.
  - left. reflexivity.
Defined.

Lemma folders_of_uniques_differ_witness :
  List.NoDup
    (map (@slab_folder toy_grow)
       (@unique_list_of_dicts toy_grow
          (@dedup toy_grow 500
             (@expected_candidates toy_grow
                (fun t v => Ok (Toy.gen_grow t v)) true [15] [10; 12])))).
Proof.
  refine (@folders_of_uniques_differ toy_grow
            (fun t v => Ok (Toy.gen_grow t v)) true [15] [10; 12] 500 _).
  left. intros s. apply Nat.eqb_refl.
Defined.

Lemma hkl_string_single_digits_inj_witness :
  @miller_index toy_grow (Toy.good 25 10)
  = @miller_index toy_grow (Toy.good 27 12).
Proof.
  refine (@hkl_string_single_digits_inj toy_grow (Toy.good 25 10)
            (Toy.good 27 12) 0 0 1 0 0 1 _ _ _ _ _ _ _ _ _);
    try reflexivity; lia.
Defined.

Lemma flat_paths_have_no_space_witness :
  occurs " "%char
    (@flat_filename toy_grow "Fe2O3" (cand10 toy_grow (Toy.good 25 10)))
  = false.
Proof.
  refine (proj2 (@flat_paths_have_no_space toy_grow toy_bulk0
                   (fun t v => Ok (Toy.gen_grow t v)) true [15] [10; 12]
                   (cand10 toy_grow (Toy.good 25 10))) _).
  left. reflexivity.
Defined.

Lemma every_candidate_is_represented_witness :
  exists st,
    snd (@unique_pass_all toy_same 500
           [cand10 toy_same (Toy.good 7 24); cand12 toy_same (Toy.good 7 24)]
           (@world0 toy_same)) = Ok st
    /\ (In (cand12 toy_same (Toy.good 7 24))
          (@unique_list_of_dicts toy_same st)
        \/ exists u, In u (@unique_list toy_same st)
                     /\ Toy.same_geometry (Toy.good 7 24) u = true).
Proof.
  destruct (@every_candidate_is_represented toy_same 500
              [cand10 toy_same (Toy.good 7 24);
               cand12 toy_same (Toy.good 7 24)] (@world0 toy_same))
    as (w' & st & _ & Hall & Hrep).
  exists st. split.
  - rewrite Hall. reflexivity.
  - apply (Hrep (cand12 toy_same (Toy.good 7 24))). right. left. reflexivity.
Defined.

Lemma uniques_keep_candidate_order_witness :
  exists st tail,
    snd (@unique_pass_all toy_same 500
           [cand10 toy_same (Toy.good 7 24); cand12 toy_same (Toy.good 7 24)]
           (@world0 toy_same)) = Ok st
    /\ @unique_list_of_dicts toy_same st
       = cand10 toy_same (Toy.good 7 24) :: tail.
Proof.
  destruct (@uniques_keep_candidate_order toy_same 500
              [cand10 toy_same (Toy.good 7 24);
               cand12 toy_same (Toy.good 7 24)] (@world0 toy_same))
    as (w' & st & _ & Hall & _ & Hfirst).
  destruct (Hfirst _ _ eq_refl) as [tail Htail].
  exists st, tail. split; [rewrite Hall; reflexivity|assumption].
Defined.

Lemma warnings_do_not_depend_on_output_witness :
  @warn_log toy_same
    (fst (@get_all_slabs toy_same (Some "bulk.cif") (Some 1)
            (Some [10; 12; 14]) (Some [15]) (@default_options toy_same tt)
            (@world0 toy_same)))
  = [repeat_message ["001_12_15_0"];
     repeat_message ["001_12_15_0"; "001_14_15_0"]].
Proof.
  refine (proj1 (proj2
    (@warnings_do_not_depend_on_output toy_same (Some "bulk.cif")
       (Some (0, 0, 1)) (Some 1) [10; 12; 14] [15]
       (@default_options toy_same tt) (@world0 toy_same)
       toy_bulk0 (Toy.mk_toy_bulk "Fe2 O3" "by_guess") _ _) _ _)).
  - reflexivity.
  - reflexivity.
  - reflexivity.
  - intros v t _ _. eexists. reflexivity.
Defined.

Lemma oxidation_states_touches_one_object_witness :
  @heap toy_same
    (fst (@oxidation_states toy_same 1%positive PyNone
            (world1 toy_same toy_bulk0))) !! 2%positive
  = @heap toy_same (world1 toy_same toy_bulk0) !! 2%positive.
Proof.
  refine (proj1 (proj2
    (@oxidation_states_touches_one_object toy_same 1%positive PyNone
       (world1 toy_same toy_bulk0))) 2%positive _).
  discriminate.
Defined.

Lemma parse_fols_collects_nothing_witness :
  @Convergence.parse_fols
    (Convergence.toy_vasp Convergence.one_folder_walk Convergence.toy_outcar)
    (Some [0; 0; 1]) (Some (-19))
  = Convergence.Fail
      (Convergence.ValueError "too many values to unpack (expected 2)").
Proof.
  refine (proj1 (proj2 (proj1 (proj2
    (@parse_fols_collects_nothing
       (Convergence.toy_vasp Convergence.one_folder_walk
          Convergence.toy_outcar)
       (Some [0; 0; 1]) (Some (-19)) _)) _)) [0; 0; 1] _ _).
  - intros entry [<-|[]]. reflexivity.
  - reflexivity.
  - reflexivity.
  - discriminate.
Defined.



Lemma drivers_write_the_same_files_witness :
  @fs_log toy_grow
    (fst (@get_one_hkl_slabs toy_grow (Some "bulk.cif") (Some (0, 0, 1))
            (Some [10; 12]) (Some [15]) (@default_options toy_grow tt)
            (@world0 toy_grow)))
  = @fs_log toy_grow
      (fst (@get_all_slabs toy_grow (Some "bulk.cif") (Some 1)
              (Some [10; 12]) (Some [15]) (@default_options toy_grow tt)
              (@world0 toy_grow))).
Proof.
  refine (proj2 (proj2
    (@drivers_write_the_same_files toy_grow (Some "bulk.cif")
       (Some (0, 0, 1)) (Some 1) [10; 12] [15]
       (@default_options toy_grow tt) (@world0 toy_grow)
       toy_bulk0 (Toy.mk_toy_bulk "Fe2 O3" "by_guess") _ _ _ _ _ _ _))).
  - reflexivity.
  - reflexivity.
  - reflexivity.
  - reflexivity.
  - reflexivity.
  - intros v t _ _. eexists. split; reflexivity.
  - intros s filename. reflexivity.
Defined.
